(** * ProxyChooser: a shallow embedding of [index.js] and its properties

    The development follows the class [ProxyChooser] of [index.js]:

    - JavaScript strings are lists of code units ([str]); the model keeps the
      code units 0..255, which covers every character the three regular
      expressions of the source distinguish.  Numbers are integers; the
      product of two doubles on line 302 is rounded as a double is.
    - The regular expressions of [proxyType] and [convertProxy] are written as
      abstract syntax and run by a derivative matcher, proved correct against
      a relational semantics.
    - The methods are functions in a state-and-exception monad over the
      private fields ([#proxyList], [#options], [#cache]) and a trace of the
      interactions with the outside (DNS lookups, [Math.random], HTTP
      requests, console lines).  The outside is an [Env] of oracles indexed by
      the length of the trace, so that answers may change over time.
    - [getProxy] is recursive in the source; the model takes fuel, one unit
      per call of [getProxy], and a run that exhausts every amount of fuel is
      a call that never settles.

    The definitions come first, then the proofs, then one section per
    property of the specification. *)

From Stdlib Require Import Ascii String.
From Stdlib Require Import List Bool Arith ZArith NArith Lia.
Import ListNotations.
Open Scope list_scope.

(** ** Strings *)

Abbreviation str := (list ascii).

Definition js (s : string) : str := list_ascii_of_string s.

Definition ascii_eqb (a b : ascii) : bool := Ascii.eqb a b.

Fixpoint str_eqb (a b : str) : bool :=
  match a, b with
  | [], [] => true
  | x :: a', y :: b' => ascii_eqb x y && str_eqb a' b'
  | _, _ => false
  end.

Definition is_nil {A} (l : list A) : bool :=
  match l with [] => true | _ => false end.

(** [Array.prototype.includes] on an array of strings. *)
Definition includes (l : list str) (x : str) : bool := existsb (str_eqb x) l.

(** [String.prototype.split] with a separator of one code unit.  The array
    it returns is never empty: the result is its first element and the list
    of the others. *)
Fixpoint split (sep : ascii) (s : str) : str * list str :=
  match s with
  | [] => ([], [])
  | c :: s' =>
      let (w, ws) := split sep s' in
      if ascii_eqb c sep then ([], w :: ws) else (c :: w, ws)
  end.

(** [[a, b] = parts]: the first element, and the second or [undefined]. *)
Definition destructure (parts : str * list str) : str * option str :=
  (fst parts, hd_error (snd parts)).

(** ** Regular expressions *)

Module RegExp.

(** The fragment of the JavaScript syntax the source uses: character
    classes, sequence, alternation, [*], and the assertions [^], [$] and
    [(?!$)]. *)
Inductive regex : Type :=
| Void
| Eps
| Chr (p : ascii -> bool)
| Cat (r1 r2 : regex)
| Alt (r1 r2 : regex)
| Star (r : regex)
| Bol
| Eol
| NotEol.

Definition Plus (r : regex) : regex := Cat r (Star r).

Fixpoint Rep (n : nat) (r : regex) : regex :=
  match n with
  | O => Eps
  | S n' => Cat r (Rep n' r)
  end.

Definition Seq (rs : list regex) : regex := fold_right Cat Eps rs.

(** Character classes. *)
Definition code (c : ascii) : N := N_of_ascii c.

Definition range (lo hi : string) (c : ascii) : bool :=
  match lo, hi with
  | String l EmptyString, String h EmptyString =>
      (code l <=? code c)%N && (code c <=? code h)%N
  | _, _ => false
  end.

Definition lit (x : string) (c : ascii) : bool :=
  match x with
  | String a EmptyString => ascii_eqb c a
  | _ => false
  end.

(** [\d] *)
Definition digit (c : ascii) : bool := range "0" "9" c.

(** [\w] *)
Definition word (c : ascii) : bool :=
  range "a" "z" c || range "A" "Z" c || range "0" "9" c || lit "_" c.

(** [\s], for the code units below 256: tab, line feed, vertical tab, form
    feed, carriage return, space and the no-break space. *)
Definition space (c : ascii) : bool :=
  ((9 <=? code c)%N && (code c <=? 13)%N) || (code c =? 32)%N || (code c =? 160)%N.

Definition any_of (ps : list (ascii -> bool)) (c : ascii) : bool :=
  existsb (fun p => p c) ps.

Definition none_of (ps : list (ascii -> bool)) (c : ascii) : bool :=
  negb (any_of ps c).

(** [nullable bol eol r]: [r] matches the empty string at a position that is
    the start of the input iff [bol], and its end iff [eol]. *)
Fixpoint nullable (bol eol : bool) (r : regex) : bool :=
  match r with
  | Void => false
  | Eps => true
  | Chr _ => false
  | Cat r1 r2 => nullable bol eol r1 && nullable bol eol r2
  | Alt r1 r2 => nullable bol eol r1 || nullable bol eol r2
  | Star _ => true
  | Bol => bol
  | Eol => eol
  | NotEol => negb eol
  end.

(** The derivative of [r] by the code unit [c] read at a position that is the
    start of the input iff [bol]. *)
Fixpoint deriv (bol : bool) (c : ascii) (r : regex) : regex :=
  match r with
  | Void | Eps | Bol | Eol | NotEol => Void
  | Chr p => if p c then Eps else Void
  | Cat r1 r2 =>
      Alt (Cat (deriv bol c r1) r2)
          (if nullable bol false r1 then deriv bol c r2 else Void)
  | Alt r1 r2 => Alt (deriv bol c r1) (deriv bol c r2)
  | Star r1 => Cat (deriv bol c r1) (Star r1)
  end.

(** Some prefix of [s] matches [r]. *)
Fixpoint match_here (bol : bool) (r : regex) (s : str) : bool :=
  match s with
  | [] => nullable bol true r
  | c :: s' => nullable bol false r || match_here false (deriv bol c r) s'
  end.

(** Some substring of [s] matches [r]. *)
Fixpoint search (bol : bool) (r : regex) (s : str) : bool :=
  match_here bol r s ||
  match s with
  | [] => false
  | _ :: s' => search false r s'
  end.

(** [RegExp.prototype.test] for a pattern without flags. *)
Definition test (r : regex) (s : str) : bool := search true r s.

(** The position after [s] is the start of the input iff the position before
    it was and [s] is empty. *)
Definition at_bol (b : bool) (s : str) : bool := b && is_nil s.

(** [matches r b s k]: [r] matches [s] when [s] is followed by [k] and starts
    at a position that is the start of the input iff [b]. *)
Inductive matches : regex -> bool -> str -> str -> Prop :=
| MEps b k : matches Eps b [] k
| MChr p c b k : p c = true -> matches (Chr p) b [c] k
| MCat r1 r2 b s1 s2 k :
    matches r1 b s1 (s2 ++ k) ->
    matches r2 (at_bol b s1) s2 k ->
    matches (Cat r1 r2) b (s1 ++ s2) k
| MAltL r1 r2 b s k : matches r1 b s k -> matches (Alt r1 r2) b s k
| MAltR r1 r2 b s k : matches r2 b s k -> matches (Alt r1 r2) b s k
| MStar0 r b k : matches (Star r) b [] k
| MStarS r b s1 s2 k :
    matches r b s1 (s2 ++ k) ->
    matches (Star r) (at_bol b s1) s2 k ->
    matches (Star r) b (s1 ++ s2) k
| MBol k : matches Bol true [] k
| MEol b : matches Eol b [] []
| MNotEol b c k : matches NotEol b [] (c :: k).

End RegExp.

Import RegExp.

(** ** JavaScript values and the private fields of the class *)

(** The values an option field or an argument may hold.  A number is an
    integer of milliseconds; an array is an array of strings. *)
Inductive jsval : Type :=
| JUndefined
| JNull
| JBool (b : bool)
| JNum (n : Z)
| JStr (s : str)
| JArray (l : list str)
| JObject.

Inductive jstype : Type :=
| TUndefined | TObject | TBoolean | TNumber | TString.

Definition typeof (v : jsval) : jstype :=
  match v with
  | JUndefined => TUndefined
  | JNull | JArray _ | JObject => TObject
  | JBool _ => TBoolean
  | JNum _ => TNumber
  | JStr _ => TString
  end.

Definition jstype_eqb (a b : jstype) : bool :=
  match a, b with
  | TUndefined, TUndefined | TObject, TObject | TBoolean, TBoolean
  | TNumber, TNumber | TString, TString => true
  | _, _ => false
  end.

Definition truthy (v : jsval) : bool :=
  match v with
  | JUndefined | JNull => false
  | JBool b => b
  | JNum n => negb (n =? 0)%Z
  | JStr s => negb (is_nil s)
  | JArray _ | JObject => true
  end.

(** [!proxy] for a parameter that is a string or [undefined]. *)
Definition falsy (proxy : option str) : bool :=
  match proxy with
  | None => true
  | Some s => is_nil s
  end.

(** A value interpolated in a template literal. *)
Definition to_string (v : option str) : str :=
  match v with
  | Some s => s
  | None => js "undefined"
  end.

Record ProxyChooserOptions : Type := mkOptions {
  verbose : jsval;
  verboseIdentifier : jsval;
  maxTimeout : jsval;
  pingUrl : jsval;
  forceRetry : jsval
}.

(** The three private fields.  [options] is [None] when the field holds a
    falsy value. *)
Record ProxyChooser : Type := mkProxyChooser {
  proxyList : list str;
  options : option ProxyChooserOptions;
  cache : list str
}.

(** [this.#options?.f] *)
Definition opt (f : ProxyChooserOptions -> jsval) (this : ProxyChooser) : jsval :=
  match options this with
  | Some o => f o
  | None => JUndefined
  end.

Definition set_proxyList (this : ProxyChooser) (l : list str) : ProxyChooser :=
  mkProxyChooser l (options this) (cache this).

Definition set_options (this : ProxyChooser) (o : ProxyChooserOptions) : ProxyChooser :=
  mkProxyChooser (proxyList this) (Some o) (cache this).

Definition set_cache (this : ProxyChooser) (c : list str) : ProxyChooser :=
  mkProxyChooser (proxyList this) (options this) c.

(** ** Errors, events and the outside world *)

Inductive proxy_type : Type := Direct | Auth | Invalid.

(** Why a probe was judged not working; it only reaches the console. *)
Inductive probe_failure : Type :=
| RequestTimedOut          (* "Request timed out after ...ms" *)
| RequestFailed.           (* new Error(error) of the client's rejection *)

Inductive error : Type :=
| ProxyUndefined                 (* "Proxy cannot be undefined" *)
| InvalidOptions                 (* "Invalid options" *)
| InvalidFormat (proxy : str)    (* "Invalid proxy format: " + proxy *)
| ResolveFailed (host : str)     (* "Failed to resolve IP address for ..." *)
| AllTested                      (* "All proxies have been tested and failed, ..." *)
| PingFailed (url : jsval)       (* "Failed to get ping for ..." *)
| TypeError                      (* a method called on undefined *)
| Rethrown (e : error).          (* new Error(error) *)

(** What the HTTP client does with one request. *)
Inductive response : Type :=
| Responded (elapsed : Z)        (* resolved; [endTime - startTime] *)
| Rejected                       (* the client's promise rejected *)
| TimerFired.                    (* the outer [pT.timeout] fired first *)

Inductive log_line : Type :=
| LogGettingPing (url : jsval)
| LogPing (url : jsval) (ms : Z)
| LogWorking (proxy : str) (ms : Z)
| LogNotWorking (proxy : str) (why : probe_failure)
| LogTrying (proxy : str)
| LogRetrying (e : error).

Inductive event : Type :=
| EvRandom (k : N)
| EvDns (host : str) (answer : option str)
| EvRequest (url : jsval) (proxy : option str) (timeout : jsval)
| EvAbort
| EvLog (identifier : jsval) (line : log_line).

(** The collaborators.  Each oracle is asked at a time, the number of events
    so far.  [math_random t] is the numerator [k] of the number
    [k / 2^53] in [0, 1) that [Math.random()] returns. *)
Record Env : Type := mkEnv {
  dns_lookup : nat -> str -> option str;
  math_random : nat -> N;
  http_get : nat -> jsval -> option str -> jsval -> response
}.

(** ** The monad of the methods *)

Inductive res (A : Type) : Type :=
| Val (a : A)
| Exn (e : error)
| NoFuel.

Arguments Val {A} a.
Arguments Exn {A} e.
Arguments NoFuel {A}.

Definition M (A : Type) : Type :=
  ProxyChooser -> list event -> res A * ProxyChooser * list event.

Definition ret {A} (a : A) : M A := fun this tr => (Val a, this, tr).

Definition throw {A} (e : error) : M A := fun this tr => (Exn e, this, tr).

Definition bind {A B} (c : M A) (k : A -> M B) : M B :=
  fun this tr =>
    match c this tr with
    | (Val a, this', tr') => k a this' tr'
    | (Exn e, this', tr') => (Exn e, this', tr')
    | (NoFuel, this', tr') => (NoFuel, this', tr')
    end.

Notation "x <- c ;; k" := (bind c (fun x => k))
  (at level 61, c at next level, right associativity).
Notation "c ;; k" := (bind c (fun _ => k))
  (at level 61, right associativity).

(** [try { body } catch (error) { handler }] *)
Definition try_catch {A} (body : M A) (handler : error -> M A) : M A :=
  fun this tr =>
    match body this tr with
    | (Exn e, this', tr') => handler e this' tr'
    | r => r
    end.

Definition lift {A} (r : res A) : M A := fun this tr => (r, this, tr).

Definition emit (e : event) : M unit := fun this tr => (Val tt, this, tr ++ [e]).

(** [if (this.#options.verbose) console.log(...)] *)
Definition log (line : log_line) : M unit :=
  fun this tr =>
    if truthy (opt verbose this)
    then (Val tt, this, tr ++ [EvLog (opt verboseIdentifier this) line])
    else (Val tt, this, tr).

(** The final result, state and trace of a run. *)
Definition result {A} (x : res A * ProxyChooser * list event) : res A := fst (fst x).
Definition final {A} (x : res A * ProxyChooser * list event) : ProxyChooser := snd (fst x).
Definition trace {A} (x : res A * ProxyChooser * list event) : list event := snd x.

(** ** The methods of [ProxyChooser] *)

(** The defaults of lines 19-25, the object of lines 45-51. *)
Definition defaultOptions : ProxyChooserOptions :=
  {| verbose := JBool false;
     verboseIdentifier := JStr (js "[proxyChooser]");
     maxTimeout := JNum 1000;
     pingUrl := JStr (js "http://myexternalip.com/raw");
     forceRetry := JBool false |}.

(** Lines 43-53, [constructor(proxyList, options)]: a missing argument is
    [None]. *)
Definition constructor (proxies : option (list str))
    (opts : option ProxyChooserOptions) : ProxyChooser :=
  {| proxyList := match proxies with Some l => l | None => [] end;
     options := Some (match opts with Some o => o | None => defaultOptions end);
     cache := [] |}.

(** [typeof v === "undefined"] *)
Definition is_undefined (v : jsval) : bool := jstype_eqb (typeof v) TUndefined.

(** [if (typeof o.f === "undefined") o.f = d], as the value of [o.f]
    afterwards. *)
Definition or_default (v d : jsval) : jsval := if is_undefined v then d else v.

(** Lines 59-95, [validateOptions()]: the object of lines 61-65 when the
    field is falsy, the five defaults of lines 68-82, the type test of lines
    84-92.  The defaults stay in the field when the test throws. *)
Definition validateOptions : M bool := fun this tr =>
  let o0 :=
    match options this with
    | Some o => o
    | None =>
        {| verbose := JBool false;
           maxTimeout := JNum 1000;
           verboseIdentifier := JStr (js "[proxyChooser]");
           pingUrl := JUndefined;
           forceRetry := JUndefined |}
    end in
  let o :=
    {| verbose := or_default (verbose o0) (JBool false);
       maxTimeout := or_default (maxTimeout o0) (JNum 1000);
       verboseIdentifier := or_default (verboseIdentifier o0) (JStr (js "[proxyChooser]"));
       pingUrl := or_default (pingUrl o0) (JStr (js "http://myexternalip.com/raw"));
       forceRetry := or_default (forceRetry o0) (JBool false) |} in
  let this' := set_options this o in
  if negb (jstype_eqb (typeof (maxTimeout o)) TNumber)
     || negb (jstype_eqb (typeof (verbose o)) TBoolean)
     || negb (jstype_eqb (typeof (verboseIdentifier o)) TString)
     || negb (jstype_eqb (typeof (pingUrl o)) TString)
     || negb (jstype_eqb (typeof (forceRetry o)) TBoolean)
  then (Exn InvalidOptions, this', tr)
  else (Val true, this', tr).

(** Lines 101-108, [resetList()]. *)
Definition resetList : M bool := fun this tr =>
  if negb (length (proxyList this) =? 0)
  then (Val true, set_proxyList this [], tr)
  else (Val false, this, tr).

(** Lines 115-122, [addProxies(proxies)]. *)
Definition addProxies (proxies : jsval) : M bool :=
  validateOptions ;;
  match proxies with
  | JArray (p :: ps) =>
      fun this tr => (Val true, set_proxyList this (proxyList this ++ p :: ps), tr)
  | _ => ret false
  end.

(** Line 134: [/^[\w.]+:\d+$/] *)
Definition directPattern : regex :=
  Seq [Bol; Plus (Chr (any_of [word; lit "."])); Chr (lit ":"); Plus (Chr digit); Eol].

(** Line 135: [/^([^:@]+):([^:@]+)@([^\s@:]+):(\d+)$/] *)
Definition authPattern : regex :=
  Seq [Bol;
       Plus (Chr (none_of [lit ":"; lit "@"])); Chr (lit ":");
       Plus (Chr (none_of [lit ":"; lit "@"])); Chr (lit "@");
       Plus (Chr (none_of [space; lit "@"; lit ":"])); Chr (lit ":");
       Plus (Chr digit); Eol].

(** [25[0-5]|(2[0-4]|1\d|[1-9]|)\d] *)
Definition octet : regex :=
  Alt (Seq [Chr (lit "2"); Chr (lit "5"); Chr (range "0" "5")])
      (Cat (Alt (Cat (Chr (lit "2")) (Chr (range "0" "4")))
           (Alt (Cat (Chr (lit "1")) (Chr digit))
           (Alt (Chr (range "1" "9"))
                Eps)))
           (Chr digit)).

(** Line 157: [/^((25[0-5]|(2[0-4]|1\d|[1-9]|)\d)(\.(?!$)|$)){4}$/] *)
Definition hasNumber : regex :=
  Seq [Bol; Rep 4 (Cat octet (Alt (Cat (Chr (lit ".")) NotEol) Eol)); Eol].

(** Lines 129-144, [proxyType(proxy)]. *)
Definition proxyType (proxy : option str) : res proxy_type :=
  if falsy proxy then Exn ProxyUndefined
  else if test directPattern (to_string proxy) then Val Direct
  else if test authPattern (to_string proxy) then Val Auth
  else Val Invalid.

(** Lines 160-172 of [convertProxy]: the variables [proxyAuth],
    [proxyPassword], [proxyHost] and [proxyPort] after the split. *)
Record proxy_parts : Type := mkParts {
  proxyAuth : option str;
  proxyPassword : option str;
  proxyHost : str;
  proxyPort : option str
}.

(** Lines 162-172.  Calling [split] on an [undefined] second element is a
    [TypeError]. *)
Definition split_proxy (proxyTypeCheck : proxy_type) (proxy : str) : res proxy_parts :=
  match proxyTypeCheck with
  | Direct =>
      let (host, port) := destructure (split ":" proxy) in
      Val (mkParts None None host port)
  | Auth =>
      let (auth, hostport) := destructure (split "@" proxy) in
      let (auth, password) := destructure (split ":" auth) in
      match hostport with
      | None => Exn TypeError
      | Some hostport =>
          let (host, port) := destructure (split ":" hostport) in
          Val (mkParts (Some auth) password host port)
      end
  | Invalid => Exn (InvalidFormat proxy)
  end.

Section Methods.

Variable env : Env.

(** [await dns.lookup(host)]; the answer is the [address] field, or [None]
    when the lookup rejects. *)
Definition lookup (host : str) : M (option str) := fun this tr =>
  let answer := dns_lookup env (length tr) host in
  (Val answer, this, tr ++ [EvDns host answer]).

(** [Math.random()] *)
Definition random : M N := fun this tr =>
  let k := (math_random env (length tr) mod 2 ^ 53)%N in
  (Val k, this, tr ++ [EvRandom k]).

(** The double product [r * len] of line 302 for [r = k / 2^53], as the
    integer [p'] with [r * len = p' / 2^53]: the exact product [p = k * len]
    rounded to the nearest number with a significand of 53 bits, ties to the
    even significand.  Here [s] is the number of bits [p] has beyond 53. *)
Definition round_to_double (p : N) : N :=
  let s := (N.log2 p + 1 - 53)%N in
  let q := (p / 2 ^ s)%N in
  let r := (p mod 2 ^ s)%N in
  let half := (2 ^ (s - 1))%N in
  if (0 <? s)%N && ((half <? r)%N || ((r =? half)%N && N.odd q))
  then ((q + 1) * 2 ^ s)%N
  else p.

(** [Math.floor(r * len)] for [r = k / 2^53]: the floor of the rounded
    product. *)
Definition floor_scaled (k : N) (len : nat) : nat :=
  N.to_nat (round_to_double (k * N.of_nat len) / 2 ^ 53)%N.

(** [axios({method: "get", url, httpAgent, httpsAgent, timeout, ...})],
    awaited. *)
Definition request (url : jsval) (proxy : option str) (timeout : jsval) : M response :=
  fun this tr =>
    (Val (http_get env (length tr) url proxy timeout), this,
     tr ++ [EvRequest url proxy timeout]).

(** Lines 151-193, [convertProxy(proxy)]. *)
Definition convertProxy (proxy : option str) : M str :=
  if falsy proxy then throw ProxyUndefined
  else
    proxyTypeCheck <- lift (proxyType proxy) ;;
    parts <- lift (split_proxy proxyTypeCheck (to_string proxy)) ;;
    host <-
      (if negb (test hasNumber (proxyHost parts)) then
         proxyIP <- lookup (proxyHost parts) ;;
         match proxyIP with
         | Some address => ret address
         | None => throw (ResolveFailed (proxyHost parts))
         end
       else ret (proxyHost parts)) ;;
    match proxyTypeCheck with
    | Auth =>
        ret (to_string (proxyAuth parts) ++ js ":" ++ to_string (proxyPassword parts)
             ++ js "@" ++ host ++ js ":" ++ to_string (proxyPort parts))
    | _ => ret (host ++ js ":" ++ to_string (proxyPort parts))
    end.

(** [(endTime - startTime) > this.#options.maxTimeout] *)
Definition exceeds (elapsed : Z) (limit : jsval) : bool :=
  match limit with
  | JNum t => (t <? elapsed)%Z
  | _ => false
  end.

(** Lines 199-222, [getPing()]. *)
Definition getPing : M Z :=
  validateOptions ;;
  fun this tr =>
    let url := opt pingUrl this in
    (log (LogGettingPing url) ;;
     rsp <- request url None (JNum (30 * 10000)) ;;
     match rsp with
     | Responded elapsed => log (LogPing url elapsed) ;; ret elapsed
     | _ => throw (PingFailed url)
     end) this tr.

(** The [catch (e)] block of [testProxy]. *)
Definition not_working (proxy : str) (why : probe_failure) : M bool :=
  log (LogNotWorking proxy why) ;; ret false.

(** Lines 238-280 of [testProxy]: the [try] block around the request and
    its [catch]. *)
Definition probe (proxy : str) : M bool :=
  fun this tr =>
    let limit := opt maxTimeout this in
    (rsp <- request (opt pingUrl this) (Some proxy) limit ;;
     match rsp with
     | Responded elapsed =>
         if exceeds elapsed limit then not_working proxy RequestTimedOut
         else log (LogWorking proxy elapsed) ;; ret true
     | Rejected => emit EvAbort ;; not_working proxy RequestFailed
     | TimerFired => emit EvAbort ;; not_working proxy RequestTimedOut
     end) this tr.

(** Lines 229-281, [testProxy(proxy)]. *)
Definition testProxy (proxy : option str) : M bool :=
  validateOptions ;;
  if falsy proxy then throw ProxyUndefined
  else
    proxy <- convertProxy proxy ;;
    probe proxy.

(** Lines 287-290, [resetCache()]. *)
Definition resetCache : M bool := fun this tr => (Val true, set_cache this [], tr).

(** Line 299: the candidates that are not in the cache. *)
Definition remaining (this : ProxyChooser) : list str :=
  filter (fun cproxy => negb (includes (cache this) cproxy)) (proxyList this).

(** Lines 299-302 of [getProxy]: draw a candidate and convert it. *)
Definition select : M str :=
  fun this tr =>
    let proxyList := remaining this in
    (r <- random ;;
     convertProxy (nth_error proxyList (floor_scaled r (length proxyList)))) this tr.

(** Lines 303-309: enter the converted proxy in the cache. *)
Definition mark (proxy : str) : M unit := fun this tr =>
  if negb (includes (cache this) proxy)
  then (Val tt, set_cache this (cache this ++ [proxy]), tr)
  else if length (cache this) =? length (proxyList this)
       then (Exn AllTested, this, tr)
       else (Val tt, this, tr).

(** Lines 299-321, the body of the [try] block up to the decision: the proxy
    when it works, [None] when [getProxy] is to be called again. *)
Definition cycle : M (option str) :=
  proxy <- select ;;
  mark proxy ;;
  log (LogTrying proxy) ;;
  workingProxy <- testProxy (Some proxy) ;;
  ret (if workingProxy then Some proxy else None).

(** Lines 296-335, [getProxy()].  The two calls [return this.getProxy()] are
    not awaited, so what they throw is not caught by the [try] block around
    them: the [catch] block handles what [cycle] throws. *)
Fixpoint getProxy (fuel : nat) : M str :=
  match fuel with
  | O => lift NoFuel
  | S fuel' =>
      validateOptions ;;
      r <- try_catch (r <- cycle ;; ret (inl r)) (fun error => ret (inr error)) ;;
      match r with
      | inl (Some proxy) => ret proxy
      | inl None => getProxy fuel'
      | inr error =>
          fun this tr =>
            if truthy (opt forceRetry this)
            then (log (LogRetrying error) ;; resetCache ;; getProxy fuel') this tr
            else (Exn (Rethrown error), this, tr)
      end
  end.

End Methods.

(** ** The surface forms of a candidate *)

(** A non-empty run of code units of one class. *)
Definition run (p : ascii -> bool) (s : str) : Prop :=
  s <> [] /\ forallb p s = true.

(** A word character or a dot. *)
Definition host_unit (c : ascii) : bool := word c || lit "." c.

(** Neither [:] nor [@]. *)
Definition credential_unit (c : ascii) : bool := negb (lit ":" c || lit "@" c).

(** Neither white space nor [@] nor [:]. *)
Definition auth_host_unit (c : ascii) : bool := negb (space c || lit "@" c || lit ":" c).

(** [host:port], the host of word characters and dots, the port of digits. *)
Definition direct_form (proxy : str) : Prop :=
  exists host port,
    proxy = host ++ js ":" ++ port /\ run host_unit host /\ run digit port.

(** [user:pass@host:port] *)
Definition auth_form (proxy : str) : Prop :=
  exists user pass host port,
    proxy = user ++ js ":" ++ pass ++ js "@" ++ host ++ js ":" ++ port /\
    run credential_unit user /\ run credential_unit pass /\
    run auth_host_unit host /\ run digit port.

Definition digit_of (d : nat) : ascii := ascii_of_nat (48 + d).

(** The decimal numeral of a number below 1000, without leading zeros. *)
Definition decimal (n : nat) : str :=
  if n <? 10 then [digit_of n]
  else if n <? 100 then [digit_of (n / 10); digit_of (n mod 10)]
  else [digit_of (n / 100); digit_of (n / 10 mod 10); digit_of (n mod 10)].

(** A dotted quad: four decimal octets, each in 0..255. *)
Definition ipv4_literal (host : str) : Prop :=
  exists a b c d,
    a < 256 /\ b < 256 /\ c < 256 /\ d < 256 /\
    host = decimal a ++ js "." ++ decimal b ++ js "." ++ decimal c ++ js "." ++ decimal d.

(** ** Notions the properties are stated with *)

(** The host [convertProxy] extracts from a candidate. *)
Definition host_of (proxy : str) : str :=
  match proxyType (Some proxy) with
  | Val t =>
      match split_proxy t proxy with
      | Val parts => proxyHost parts
      | _ => []
      end
  | _ => []
  end.

(** The candidate is well formed and its host is not a dotted quad, so that
    [convertProxy] asks the resolver. *)
Definition needs_lookup (proxy : str) : bool :=
  match proxyType (Some proxy) with
  | Val Direct | Val Auth => negb (test hasNumber (host_of proxy))
  | _ => false
  end.

(** The host of the candidate resolves at time [t]: it is a dotted quad, or
    the resolver answers. *)
Definition resolves (env : Env) (t : nat) (proxy : str) : Prop :=
  needs_lookup proxy = true -> dns_lookup env t (host_of proxy) <> None.

(** The proxies of the proxied requests of a trace, in order. *)
Fixpoint probes (tr : list event) : list str :=
  match tr with
  | [] => []
  | EvRequest _ (Some proxy) _ :: tr' => proxy :: probes tr'
  | _ :: tr' => probes tr'
  end.

(** The events that reach the network: lookups and requests. *)
Definition network_event (e : event) : bool :=
  match e with
  | EvDns _ _ | EvRequest _ _ _ => true
  | _ => false
  end.

(** The documented option fields (lines 19-25 of the source). *)
Inductive field : Type :=
| Verbose | VerboseIdentifier | MaxTimeout | PingUrl | ForceRetry.

Definition get (f : field) : ProxyChooserOptions -> jsval :=
  match f with
  | Verbose => verbose
  | VerboseIdentifier => verboseIdentifier
  | MaxTimeout => maxTimeout
  | PingUrl => pingUrl
  | ForceRetry => forceRetry
  end.

Definition documented_type (f : field) : jstype :=
  match f with
  | Verbose | ForceRetry => TBoolean
  | VerboseIdentifier | PingUrl => TString
  | MaxTimeout => TNumber
  end.

Definition documented_default (f : field) : jsval := get f defaultOptions.

Definition fields : list field :=
  [Verbose; VerboseIdentifier; MaxTimeout; PingUrl; ForceRetry].

(** Every field holds a value of its documented type. *)
Definition well_typed (o : ProxyChooserOptions) : bool :=
  forallb (fun f => jstype_eqb (typeof (get f o)) (documented_type f)) fields.

(** The state after a successful [validateOptions]. *)
Definition validated (this : ProxyChooser) : Prop :=
  exists o, options this = Some o /\ well_typed o = true.

(** [forceRetry] is [false], or missing and so [false] by default. *)
Definition force_retry_off (this : ProxyChooser) : Prop :=
  or_default (opt forceRetry this) (JBool false) = JBool false.

(** [addProxies] refuses the argument: it is missing, not an array, or an
    empty array. *)
Definition refused (proxies : jsval) : Prop :=
  match proxies with
  | JArray (_ :: _) => False
  | _ => True
  end.

(** A probe counts as a success when the client answered within the limit. *)
Definition in_time (rsp : response) (limit : jsval) : bool :=
  match rsp with
  | Responded elapsed => negb (exceeds elapsed limit)
  | _ => false
  end.

(** Of the events [evs] that follow the trace [tr], the last proxied request
    went through [p] and the client answered it within its limit. *)
Definition ends_on_a_working_probe (env : Env) (tr evs : list event) (p : str) : Prop :=
  exists before url limit after,
    evs = before ++ EvRequest url (Some p) limit :: after /\
    probes after = [] /\
    in_time (http_get env (length (tr ++ before)) url (Some p) limit) limit = true.

(** Following the specification's wording of the draw: the candidates whose
    normalized form is not in the cache.  A candidate that does not
    normalize is kept. *)
Definition remaining_by_normalized_form (env : Env) (this : ProxyChooser)
    (tr : list event) : list str :=
  filter (fun candidate =>
            match result (convertProxy env (Some candidate) this tr) with
            | Val normalized => negb (includes (cache this) normalized)
            | _ => true
            end)
         (proxyList this).

(** ** Auxiliary notions of the proofs *)

Definition differs (sep c : ascii) : bool := negb (ascii_eqb c sep).

(** A pattern without assertions. *)
Fixpoint pure (r : regex) : bool :=
  match r with
  | Bol | Eol | NotEol => false
  | Cat r1 r2 | Alt r1 r2 => pure r1 && pure r2
  | Star r1 => pure r1
  | _ => true
  end.

(** The number a decimal numeral stands for. *)
Definition numeral_value (s : str) : nat :=
  fold_left (fun acc c => 10 * acc + (nat_of_ascii c - 48)) s 0.

(** One group [(octet)(\.(?!$)|$)] of [hasNumber]. *)
Definition quad_group : regex := Cat octet (Alt (Cat (Chr (lit ".")) NotEol) Eol).

(** What [convertProxy] does once the host and the rest are known. *)
Definition resolved (env : Env) (host : str) (rest : str -> str)
    (this : ProxyChooser) (tr : list event) : res str * ProxyChooser * list event :=
  if test hasNumber host then (Val (rest host), this, tr)
  else match dns_lookup env (length tr) host with
       | Some address => (Val (rest address), this, tr ++ [EvDns host (Some address)])
       | None => (Exn (ResolveFailed host), this, tr ++ [EvDns host None])
       end.

(** ** Examples of worlds and instances *)

(** A resolver that only knows [localhost]. *)
Definition local_dns (t : nat) (host : str) : option str :=
  if str_eqb host (js "localhost") then Some (js "127.0.0.1") else None.

(** A world where no request succeeds; [rnd] is the random source. *)
Definition dead_world (rnd : nat -> N) : Env :=
  {| dns_lookup := local_dns;
     math_random := rnd;
     http_get := fun _ _ _ _ => Rejected |}.

(** A world where every request is answered after 20 ms. *)
Definition live_world : Env :=
  {| dns_lookup := local_dns;
     math_random := fun _ => 0%N;
     http_get := fun _ _ _ _ => Responded 20 |}.

(** [new ProxyChooser(["localhost:80", "127.0.0.1:80"])] *)
Definition two_names : ProxyChooser :=
  constructor (Some [js "localhost:80"; js "127.0.0.1:80"]) None.

(** The same instance after a failed probe of [127.0.0.1:80]. *)
Definition two_names_probed : ProxyChooser :=
  set_cache two_names [js "127.0.0.1:80"].

(** [new ProxyChooser(["10.0.0.1:8080", "10.0.0.2:8080"])] *)
Definition two_literals : ProxyChooser :=
  constructor (Some [js "10.0.0.1:8080"; js "10.0.0.2:8080"]) None.

(** [new ProxyChooser([], {verbose: "yes"})] *)
Definition ill_typed : ProxyChooser :=
  constructor None
    (Some (mkOptions (JStr (js "yes")) JUndefined JUndefined JUndefined JUndefined)).

(** [new ProxyChooser([], {..., forceRetry: true})], the other options as
    by default. *)
Definition retrying_empty : ProxyChooser :=
  constructor None
    (Some (mkOptions (JBool false) (JStr (js "[proxyChooser]")) (JNum 1000)
             (JStr (js "http://myexternalip.com/raw")) (JBool true))).

(** [new ProxyChooser(["localhost:80"])] *)
Definition one_name : ProxyChooser :=
  constructor (Some [js "localhost:80"]) None.

(** [new ProxyChooser(["10.0.0.1:8080"], {..., forceRetry: true})] after a
    failed probe of its candidate. *)
Definition retrying_probed : ProxyChooser :=
  set_cache
    (constructor (Some [js "10.0.0.1:8080"])
       (Some (mkOptions (JBool false) (JStr (js "[proxyChooser]")) (JNum 1000)
                (JStr (js "http://myexternalip.com/raw")) (JBool true))))
    [js "10.0.0.1:8080"].

(** The computation [c] leaves the part [f] of the state as it was, however
    it ends. *)
Definition keeps {A B} (f : ProxyChooser -> B) (c : M A) : Prop :=
  forall this tr, f (final (c this tr)) = f this.

(** No request is ever answered within its limit. *)
Definition never_in_time (env : Env) : Prop :=
  forall t url proxy limit, in_time (http_get env t url proxy limit) limit = false.

Definition is_abort (e : event) : bool :=
  match e with EvAbort => true | _ => false end.

(** The errors a conversion throws. *)
Definition conversion_error (e : error) : Prop :=
  e = ProxyUndefined \/ (exists p, e = InvalidFormat p) \/ (exists h, e = ResolveFailed h).

(** A world whose resolver answers every name with the IPv6 loopback. *)
Definition ipv6_world : Env :=
  {| dns_lookup := fun _ _ => Some (js "::1");
     math_random := fun _ => 0%N;
     http_get := fun _ _ _ _ => Responded 20 |}.

(** * Proofs *)

(** ** The matcher is correct *)
Module RegExpFacts.

Lemma at_bol_nil b : at_bol b [] = b.
Proof. unfold at_bol; simpl; apply andb_true_r. Qed.

Lemma at_bol_cons b c s : at_bol b (c :: s) = false.
Proof. unfold at_bol; simpl; apply andb_false_r. Qed.

Lemma at_bol_false s : at_bol false s = false.
Proof. reflexivity. Qed.

Lemma at_bol_app b s1 s2 : at_bol (at_bol b s1) s2 = at_bol b (s1 ++ s2).
Proof. destruct s1; simpl; [now rewrite at_bol_nil | now rewrite !at_bol_cons]. Qed.

(** [nullable] decides the matches of the empty string. *)
Lemma nullable_sound r : forall b k,
  nullable b (is_nil k) r = true -> matches r b [] k.
Proof.
  induction r; simpl; intros b k H; try discriminate.
  - constructor.
  - apply andb_true_iff in H as [H1 H2].
    change (@nil ascii) with (@nil ascii ++ []).
    constructor; [apply IHr1 | rewrite at_bol_nil; apply IHr2]; assumption.
  - apply orb_true_iff in H as [H | H]; [apply MAltL | apply MAltR]; auto.
  - constructor.
  - subst b; constructor.
  - destruct k; [constructor | discriminate].
  - destruct k; [discriminate | constructor].
Qed.

Lemma nullable_complete r b s k :
  matches r b s k -> s = [] -> nullable b (is_nil k) r = true.
Proof.
  induction 1; simpl; intros E; try reflexivity; try discriminate.
  - apply app_eq_nil in E as [-> ->].
    rewrite at_bol_nil in *. simpl in *.
    rewrite IHmatches1, IHmatches2; auto.
  - rewrite IHmatches; auto.
  - rewrite IHmatches; auto using orb_true_r.
Qed.

(** Inversion of [matches], one lemma per form of pattern. *)
Lemma matches_Void r b s k : matches r b s k -> r = Void -> False.
Proof. destruct 1; discriminate. Qed.

Lemma matches_Eps_inv b s k : matches Eps b s k -> s = [].
Proof. inversion 1; reflexivity. Qed.

Lemma matches_Chr_inv p b s k :
  matches (Chr p) b s k -> exists c, s = [c] /\ p c = true.
Proof. inversion 1; subst; eauto. Qed.

Lemma matches_Cat_inv r1 r2 b s k :
  matches (Cat r1 r2) b s k ->
  exists s1 s2, s = s1 ++ s2 /\ matches r1 b s1 (s2 ++ k) /\ matches r2 (at_bol b s1) s2 k.
Proof. inversion 1; subst; eauto. Qed.

Lemma matches_Alt_inv r1 r2 b s k :
  matches (Alt r1 r2) b s k -> matches r1 b s k \/ matches r2 b s k.
Proof. inversion 1; subst; auto. Qed.

Lemma matches_Bol_inv b s k : matches Bol b s k -> s = [] /\ b = true.
Proof. inversion 1; auto. Qed.

Lemma matches_Eol_inv b s k : matches Eol b s k -> s = [] /\ k = [].
Proof. inversion 1; auto. Qed.

Lemma matches_NotEol_inv b s k : matches NotEol b s k -> s = [] /\ k <> [].
Proof. inversion 1; split; [reflexivity | discriminate]. Qed.

(** The derivative matches what is left of a match after its first code unit. *)
Lemma deriv_sound r : forall b c s k,
  matches (deriv b c r) false s k -> matches r b (c :: s) k.
Proof.
  induction r; simpl; intros b c s k H;
    try solve [exfalso; exact (matches_Void _ _ _ _ H eq_refl)].
  - destruct (p c) eqn:E; [| exfalso; exact (matches_Void _ _ _ _ H eq_refl)].
    apply matches_Eps_inv in H as ->. now constructor.
  - apply matches_Alt_inv in H as [H | H].
    + apply matches_Cat_inv in H as (s1 & s2 & -> & H1 & H2).
      change (c :: s1 ++ s2) with ((c :: s1) ++ s2).
      constructor; [now apply IHr1 | now rewrite at_bol_cons].
    + destruct (nullable b false r1) eqn:N;
        [| exfalso; exact (matches_Void _ _ _ _ H eq_refl)].
      change (c :: s) with ([] ++ c :: s).
      constructor.
      * apply nullable_sound. exact N.
      * rewrite at_bol_nil. now apply IHr2.
  - apply matches_Alt_inv in H as [H | H]; [apply MAltL | apply MAltR]; auto.
  - apply matches_Cat_inv in H as (s1 & s2 & -> & H1 & H2).
    change (c :: s1 ++ s2) with ((c :: s1) ++ s2).
    constructor; [now apply IHr | now rewrite at_bol_cons].
Qed.

Lemma deriv_complete r b s0 k :
  matches r b s0 k -> forall c s, s0 = c :: s -> matches (deriv b c r) false s k.
Proof.
  induction 1; simpl; intros c0 s0 E; try discriminate.
  - injection E as -> <-. rewrite H. constructor.
  - destruct s1 as [| c1 s1]; simpl in E.
    + subst s2. rewrite at_bol_nil in *. apply MAltR.
      pose proof (nullable_complete _ _ _ _ H eq_refl) as N. simpl in N.
      rewrite N. now apply IHmatches2.
    + injection E as -> <-. rewrite at_bol_cons in *. apply MAltL.
      constructor; [now apply IHmatches1 | exact H0].
  - apply MAltL; auto.
  - apply MAltR; auto.
  - destruct s1 as [| c1 s1]; simpl in E.
    + subst s2. rewrite at_bol_nil in *. now apply IHmatches2.
    + injection E as -> <-. rewrite at_bol_cons in *.
      constructor; [now apply IHmatches1 | exact H0].
Qed.

Lemma match_here_spec s : forall b r,
  match_here b r s = true <->
  exists s1 s2, s = s1 ++ s2 /\ matches r b s1 s2.
Proof.
  induction s as [| c s IH]; simpl; intros b r.
  - split.
    + intros H. exists [], []. split; [reflexivity | now apply nullable_sound].
    + intros (s1 & s2 & E & H). symmetry in E. apply app_eq_nil in E as [-> ->].
      now apply (nullable_complete _ _ _ _ H).
  - rewrite orb_true_iff, IH. split.
    + intros [H | (s1 & s2 & -> & H)].
      * exists [], (c :: s). split; [reflexivity | now apply nullable_sound].
      * exists (c :: s1), s2. split; [reflexivity | now apply deriv_sound].
    + intros (s1 & s2 & E & H). destruct s1 as [| c1 s1]; simpl in E.
      * left. subst s2. now apply (nullable_complete _ _ _ _ H).
      * injection E as <- ->. right. exists s1, s2. split; [reflexivity |].
        now apply (deriv_complete _ _ _ _ H).
Qed.

Lemma search_spec s : forall b r,
  search b r s = true <->
  exists pre m post, s = pre ++ m ++ post /\ matches r (at_bol b pre) m post.
Proof.
  induction s as [| c s IH]; intros b r; cbn [search]; rewrite orb_true_iff.
  - split.
    + intros [H | H]; [| discriminate].
      apply match_here_spec in H as (s1 & s2 & E & H).
      exists [], s1, s2. now rewrite at_bol_nil.
    + intros (pre & m & post & E & H). left.
      destruct pre; [| discriminate]. rewrite at_bol_nil in H.
      apply match_here_spec. now exists m, post.
  - rewrite IH. split.
    + intros [H | (pre & m & post & -> & H)].
      * apply match_here_spec in H as (s1 & s2 & E & H).
        exists [], s1, s2. now rewrite at_bol_nil.
      * exists (c :: pre), m, post. now rewrite at_bol_cons.
    + intros (pre & m & post & E & H). destruct pre as [| c1 pre]; simpl in E.
      * left. rewrite at_bol_nil in H. apply match_here_spec. now exists m, post.
      * injection E as <- ->. right. rewrite at_bol_cons in H.
        exists pre, m, post. now rewrite at_bol_false.
Qed.

Lemma matches_Star_Chr p b s k :
  matches (Star (Chr p)) b s k <-> forallb p s = true.
Proof.
  split.
  - remember (Star (Chr p)) as r eqn:E. induction 1; try discriminate.
    + reflexivity.
    + injection E as ->. apply matches_Chr_inv in H as (c & -> & Hc).
      simpl. rewrite Hc. now apply IHmatches2.
  - revert b. induction s as [| c s IH]; simpl; intros b H.
    + constructor.
    + apply andb_true_iff in H as [Hc H].
      change (c :: s) with ([c] ++ s). constructor; [now constructor | now apply IH].
Qed.

Lemma matches_Plus_Chr p b s k :
  matches (Plus (Chr p)) b s k <-> s <> [] /\ forallb p s = true.
Proof.
  unfold Plus. split.
  - intros H. apply matches_Cat_inv in H as (s1 & s2 & -> & H1 & H2).
    apply matches_Chr_inv in H1 as (c & -> & Hc).
    apply matches_Star_Chr in H2. simpl. rewrite Hc, H2. split; [discriminate | reflexivity].
  - intros [N H]. destruct s as [| c s]; [contradiction |].
    simpl in H. apply andb_true_iff in H as [Hc H].
    change (c :: s) with ([c] ++ s). constructor; [now constructor | now apply matches_Star_Chr].
Qed.

Lemma matches_Cat_intro r1 r2 b s s1 s2 k :
  s = s1 ++ s2 ->
  matches r1 b s1 (s2 ++ k) -> matches r2 (at_bol b s1) s2 k ->
  matches (Cat r1 r2) b s k.
Proof. intros ->. apply MCat. Qed.

Lemma matches_Seq_Eol rs : forall b s k,
  matches (Seq (rs ++ [Eol])) b s k <-> matches (Seq rs) b s k /\ k = [].
Proof.
  induction rs as [| r rs IH]; cbn [Seq fold_right app]; intros b s k.
  - split.
    + intros H. apply matches_Cat_inv in H as (s1 & s2 & -> & H1 & H2).
      apply matches_Eol_inv in H1 as [-> E]. apply matches_Eps_inv in H2 as ->.
      simpl in E. split; [constructor | exact E].
    + intros [H ->]. apply matches_Eps_inv in H as ->.
      apply (matches_Cat_intro _ _ _ _ [] []); [reflexivity | constructor | constructor].
  - split.
    + intros H. apply matches_Cat_inv in H as (s1 & s2 & -> & H1 & H2).
      apply IH in H2 as [H2 ->]. rewrite app_nil_r in H1.
      split; [| reflexivity]. constructor; [now rewrite app_nil_r | exact H2].
    + intros [H ->]. apply matches_Cat_inv in H as (s1 & s2 & -> & H1 & H2).
      constructor; [exact H1 | apply IH; auto].
Qed.

(** A pattern [^...$] tests whether the sequence between the anchors matches
    the whole string. *)
Lemma test_anchored rs s :
  test (Seq (Bol :: rs ++ [Eol])) s = true <-> matches (Seq rs) true s [].
Proof.
  unfold test. rewrite search_spec. cbn [Seq fold_right]. split.
  - intros (pre & m & post & -> & H).
    apply matches_Cat_inv in H as (s1 & s2 & -> & H1 & H).
    apply matches_Bol_inv in H1 as [-> B].
    unfold at_bol in B. apply andb_true_iff in B as [_ B].
    destruct pre; [| discriminate]. rewrite !at_bol_nil in H.
    apply (matches_Seq_Eol rs) in H as [H ->]. simpl. now rewrite app_nil_r.
  - intros H. exists [], s, []. split; [now rewrite app_nil_r |].
    rewrite at_bol_nil.
    apply (matches_Cat_intro _ _ _ _ [] s); [reflexivity | constructor |].
    rewrite at_bol_nil. apply (matches_Seq_Eol rs). auto.
Qed.

Lemma forallb_ext_in (p q : ascii -> bool) s :
  (forall c, p c = q c) -> forallb p s = forallb q s.
Proof. intros E. induction s; simpl; [reflexivity | now rewrite E, IHs]. Qed.

End RegExpFacts.

Import RegExpFacts.

Lemma lit_eq x c : lit (String x EmptyString) c = true -> c = x.
Proof. unfold lit, ascii_eqb. apply Ascii.eqb_eq. Qed.

Lemma host_class c : any_of [word; lit "."] c = host_unit c.
Proof. unfold any_of, host_unit. cbn [existsb]. now rewrite orb_false_r. Qed.

Lemma credential_class c : none_of [lit ":"; lit "@"] c = credential_unit c.
Proof. unfold none_of, any_of, credential_unit. cbn [existsb]. now rewrite orb_false_r. Qed.

Lemma auth_host_class c : none_of [space; lit "@"; lit ":"] c = auth_host_unit c.
Proof.
  unfold none_of, any_of, auth_host_unit. cbn [existsb].
  now rewrite orb_false_r, orb_assoc.
Qed.

Lemma directPattern_spec proxy :
  test directPattern proxy = true <-> direct_form proxy.
Proof.
  unfold directPattern.
  change (test _ proxy = true) with
    (test (Seq (Bol :: [Plus (Chr (any_of [word; lit "."])); Chr (lit ":"); Plus (Chr digit)] ++ [Eol])) proxy = true).
  rewrite test_anchored. cbn [Seq fold_right]. split.
  - intros H.
    apply matches_Cat_inv in H as (host & s2 & -> & H1 & H).
    apply matches_Plus_Chr in H1 as [N1 F1].
    apply matches_Cat_inv in H as (colon & s3 & -> & H2 & H).
    apply matches_Chr_inv in H2 as (c & -> & Hc). apply lit_eq in Hc as ->.
    apply matches_Cat_inv in H as (port & s4 & -> & H3 & H).
    apply matches_Plus_Chr in H3 as [N3 F3].
    apply matches_Eps_inv in H as ->.
    exists host, port. rewrite app_nil_r. split; [reflexivity |]. split; split; auto.
    rewrite <- (forallb_ext_in _ _ _ host_class). exact F1.
  - intros (host & port & -> & [N1 F1] & [N3 F3]).
    apply (matches_Cat_intro _ _ _ _ host (js ":" ++ port)); [reflexivity | |].
    { apply matches_Plus_Chr. split; [exact N1 |].
      rewrite (forallb_ext_in _ _ _ host_class). exact F1. }
    apply (matches_Cat_intro _ _ _ _ (js ":") port);
      [reflexivity | apply (MChr _ ":"%char); reflexivity |].
    apply (matches_Cat_intro _ _ _ _ port []); [now rewrite app_nil_r | | constructor].
    apply matches_Plus_Chr. auto.
Qed.

Lemma authPattern_spec proxy :
  test authPattern proxy = true <-> auth_form proxy.
Proof.
  unfold authPattern.
  change (test _ proxy = true) with
    (test (Seq (Bol :: [Plus (Chr (none_of [lit ":"; lit "@"])); Chr (lit ":");
                        Plus (Chr (none_of [lit ":"; lit "@"])); Chr (lit "@");
                        Plus (Chr (none_of [space; lit "@"; lit ":"])); Chr (lit ":");
                        Plus (Chr digit)] ++ [Eol])) proxy = true).
  rewrite test_anchored. cbn [Seq fold_right]. split.
  - intros H.
    apply matches_Cat_inv in H as (user & s2 & -> & H1 & H).
    apply matches_Plus_Chr in H1 as [N1 F1].
    apply matches_Cat_inv in H as (x1 & s3 & -> & H2 & H).
    apply matches_Chr_inv in H2 as (c1 & -> & Hc1). apply lit_eq in Hc1 as ->.
    apply matches_Cat_inv in H as (pass & s4 & -> & H3 & H).
    apply matches_Plus_Chr in H3 as [N3 F3].
    apply matches_Cat_inv in H as (x2 & s5 & -> & H4 & H).
    apply matches_Chr_inv in H4 as (c2 & -> & Hc2). apply lit_eq in Hc2 as ->.
    apply matches_Cat_inv in H as (host & s6 & -> & H5 & H).
    apply matches_Plus_Chr in H5 as [N5 F5].
    apply matches_Cat_inv in H as (x3 & s7 & -> & H6 & H).
    apply matches_Chr_inv in H6 as (c3 & -> & Hc3). apply lit_eq in Hc3 as ->.
    apply matches_Cat_inv in H as (port & s8 & -> & H7 & H).
    apply matches_Plus_Chr in H7 as [N7 F7].
    apply matches_Eps_inv in H as ->.
    exists user, pass, host, port. rewrite app_nil_r. split; [reflexivity |].
    rewrite (forallb_ext_in _ _ _ credential_class) in F1.
    rewrite (forallb_ext_in _ _ _ credential_class) in F3.
    rewrite (forallb_ext_in _ _ _ auth_host_class) in F5.
    repeat split; auto.
  - intros (user & pass & host & port & -> & [N1 F1] & [N3 F3] & [N5 F5] & [N7 F7]).
    rewrite <- (forallb_ext_in _ _ _ credential_class) in F1.
    rewrite <- (forallb_ext_in _ _ _ credential_class) in F3.
    rewrite <- (forallb_ext_in _ _ _ auth_host_class) in F5.
    eapply matches_Cat_intro; [reflexivity | apply matches_Plus_Chr; auto |].
    apply (matches_Cat_intro _ _ _ _ (js ":") (pass ++ js "@" ++ host ++ js ":" ++ port));
      [reflexivity | apply (MChr _ ":"%char); reflexivity |].
    eapply matches_Cat_intro; [reflexivity | apply matches_Plus_Chr; auto |].
    apply (matches_Cat_intro _ _ _ _ (js "@") (host ++ js ":" ++ port));
      [reflexivity | apply (MChr _ "@"%char); reflexivity |].
    eapply matches_Cat_intro; [reflexivity | apply matches_Plus_Chr; auto |].
    apply (matches_Cat_intro _ _ _ _ (js ":") port);
      [reflexivity | apply (MChr _ ":"%char); reflexivity |].
    apply (matches_Cat_intro _ _ _ _ port []); [now rewrite app_nil_r | | constructor].
    apply matches_Plus_Chr. auto.
Qed.

(** ** Splitting *)

Lemma split_none sep s :
  forallb (differs sep) s = true -> split sep s = (s, []).
Proof.
  induction s as [| c s IH]; simpl; intros H; [reflexivity |].
  apply andb_true_iff in H as [Hc H]. rewrite (IH H).
  unfold differs in Hc. now destruct (ascii_eqb c sep).
Qed.

Lemma split_app sep a b :
  forallb (differs sep) a = true ->
  split sep (a ++ sep :: b) = (a, fst (split sep b) :: snd (split sep b)).
Proof.
  induction a as [| c a IH]; simpl; intros H.
  - destruct (split sep b). unfold ascii_eqb. now rewrite Ascii.eqb_refl.
  - apply andb_true_iff in H as [Hc H]. rewrite (IH H).
    unfold differs in Hc. now destruct (ascii_eqb c sep).
Qed.

Lemma forallb_impl (p q : ascii -> bool) s :
  (forall c, p c = true -> q c = true) -> forallb p s = true -> forallb q s = true.
Proof.
  intros I. induction s; simpl; [reflexivity |]. intros H.
  apply andb_true_iff in H as [H1 H2]. now rewrite (I _ H1), IHs.
Qed.

Ltac by_code_unit c :=
  destruct c as [[] [] [] [] [] [] [] []]; try reflexivity; try discriminate.

Lemma host_unit_not_colon c : host_unit c = true -> differs ":" c = true.
Proof. by_code_unit c. Qed.

Lemma digit_not_colon c : digit c = true -> differs ":" c = true.
Proof. by_code_unit c. Qed.

Lemma credential_not_colon c : credential_unit c = true -> differs ":" c = true.
Proof. by_code_unit c. Qed.

Lemma credential_not_at c : credential_unit c = true -> differs "@" c = true.
Proof. by_code_unit c. Qed.

Lemma auth_host_not_colon c : auth_host_unit c = true -> differs ":" c = true.
Proof. by_code_unit c. Qed.

Lemma auth_host_not_at c : auth_host_unit c = true -> differs "@" c = true.
Proof. by_code_unit c. Qed.

Lemma digit_not_at c : digit c = true -> differs "@" c = true.
Proof. by_code_unit c. Qed.

Lemma host_unit_not_at c : host_unit c = true -> differs "@" c = true.
Proof. by_code_unit c. Qed.

Lemma forallb_differs_In sep s :
  forallb (differs sep) s = true -> ~ In sep s.
Proof.
  intros H I. rewrite forallb_forall in H. specialize (H _ I).
  unfold differs, ascii_eqb in H. now rewrite Ascii.eqb_refl in H.
Qed.

(** ** Classification *)

Lemma direct_form_no_at proxy : direct_form proxy -> ~ In "@"%char proxy.
Proof.
  intros (host & port & -> & [_ F1] & [_ F2]).
  apply forallb_differs_In. rewrite !forallb_app. simpl.
  rewrite (forallb_impl _ _ _ host_unit_not_at F1), (forallb_impl _ _ _ digit_not_at F2).
  reflexivity.
Qed.

Lemma auth_form_has_at proxy : auth_form proxy -> In "@"%char proxy.
Proof.
  intros (user & pass & host & port & -> & _).
  rewrite !in_app_iff. right. right. right. left. now left.
Qed.

Lemma direct_form_nonempty proxy : direct_form proxy -> proxy <> [].
Proof. intros (host & port & -> & [N _] & _). now destruct host. Qed.

Lemma auth_form_nonempty proxy : auth_form proxy -> proxy <> [].
Proof. intros (user & pass & host & port & -> & [N _] & _). now destruct user. Qed.

Lemma falsy_nonempty (proxy : str) : proxy <> [] -> falsy (Some proxy) = false.
Proof. now destruct proxy. Qed.

Lemma proxyType_direct proxy :
  direct_form proxy -> proxyType (Some proxy) = Val Direct.
Proof.
  intros H. unfold proxyType.
  rewrite (falsy_nonempty _ (direct_form_nonempty _ H)). simpl to_string.
  apply directPattern_spec in H. now rewrite H.
Qed.

Lemma proxyType_auth proxy :
  auth_form proxy -> proxyType (Some proxy) = Val Auth.
Proof.
  intros H. unfold proxyType.
  rewrite (falsy_nonempty _ (auth_form_nonempty _ H)). simpl to_string.
  destruct (test directPattern proxy) eqn:D.
  - apply directPattern_spec, direct_form_no_at in D.
    now apply auth_form_has_at in H.
  - apply authPattern_spec in H. now rewrite H.
Qed.

Lemma proxyType_cases proxy t :
  proxyType (Some proxy) = Val t ->
  match t with
  | Direct => direct_form proxy
  | Auth => auth_form proxy
  | Invalid => proxy <> [] /\ ~ direct_form proxy /\ ~ auth_form proxy
  end.
Proof.
  unfold proxyType. destruct (falsy (Some proxy)) eqn:F; [discriminate |].
  simpl to_string.
  destruct (test directPattern proxy) eqn:D.
  - intros [= <-]. now apply directPattern_spec.
  - destruct (test authPattern proxy) eqn:A; intros [= <-].
    + now apply authPattern_spec.
    + split; [now destruct proxy |]. split; intros H.
      * apply directPattern_spec in H. congruence.
      * apply authPattern_spec in H. congruence.
Qed.

(** ** Splitting a classified candidate *)

Lemma split_proxy_direct host port :
  run host_unit host -> run digit port ->
  split_proxy Direct (host ++ js ":" ++ port) = Val (mkParts None None host (Some port)).
Proof.
  intros [_ F1] [_ F2]. unfold split_proxy. simpl app.
  rewrite (split_app _ _ _ (forallb_impl _ _ _ host_unit_not_colon F1)).
  rewrite (split_none _ _ (forallb_impl _ _ _ digit_not_colon F2)).
  reflexivity.
Qed.

Lemma split_proxy_auth user pass host port :
  run credential_unit user -> run credential_unit pass ->
  run auth_host_unit host -> run digit port ->
  split_proxy Auth (user ++ js ":" ++ pass ++ js "@" ++ host ++ js ":" ++ port) =
  Val (mkParts (Some user) (Some pass) host (Some port)).
Proof.
  intros [_ F1] [_ F2] [_ F3] [_ F4]. unfold split_proxy.
  replace (user ++ js ":" ++ pass ++ js "@" ++ host ++ js ":" ++ port)
    with ((user ++ js ":" ++ pass) ++ "@"%char :: (host ++ js ":" ++ port))
    by (now rewrite <- !app_assoc).
  rewrite split_app.
  2:{ rewrite !forallb_app. simpl.
      now rewrite (forallb_impl _ _ _ credential_not_at F1), (forallb_impl _ _ _ credential_not_at F2). }
  rewrite split_none.
  2:{ rewrite !forallb_app. simpl.
      now rewrite (forallb_impl _ _ _ auth_host_not_at F3), (forallb_impl _ _ _ digit_not_at F4). }
  unfold destructure. cbn [fst snd hd_error]. simpl app.
  rewrite (split_app _ _ _ (forallb_impl _ _ _ credential_not_colon F1)).
  rewrite (split_none _ _ (forallb_impl _ _ _ credential_not_colon F2)).
  cbn [fst snd hd_error].
  rewrite (split_app _ _ _ (forallb_impl _ _ _ auth_host_not_colon F3)).
  rewrite (split_none _ _ (forallb_impl _ _ _ digit_not_colon F4)).
  reflexivity.
Qed.

(** ** Conversion of a classified candidate *)

Section Conversion.

Variable env : Env.

Lemma convertProxy_direct host port this tr :
  run host_unit host -> run digit port ->
  convertProxy env (Some (host ++ js ":" ++ port)) this tr =
  resolved env host (fun h => h ++ js ":" ++ port) this tr.
Proof.
  intros H1 H2.
  assert (D : direct_form (host ++ js ":" ++ port)) by (exists host, port; auto).
  unfold convertProxy, resolved.
  rewrite (falsy_nonempty _ (direct_form_nonempty _ D)).
  rewrite (proxyType_direct _ D). unfold bind, lift, to_string at 1.
  rewrite (split_proxy_direct _ _ H1 H2). cbn [proxyHost proxyPort to_string].
  destruct (test hasNumber host); cbn [negb]; [reflexivity |].
  unfold lookup. destruct (dns_lookup env (length tr) host); reflexivity.
Qed.

Lemma convertProxy_auth user pass host port this tr :
  run credential_unit user -> run credential_unit pass ->
  run auth_host_unit host -> run digit port ->
  convertProxy env (Some (user ++ js ":" ++ pass ++ js "@" ++ host ++ js ":" ++ port)) this tr =
  resolved env host (fun h => user ++ js ":" ++ pass ++ js "@" ++ h ++ js ":" ++ port) this tr.
Proof.
  intros H1 H2 H3 H4.
  assert (A : auth_form (user ++ js ":" ++ pass ++ js "@" ++ host ++ js ":" ++ port))
    by (exists user, pass, host, port; auto).
  unfold convertProxy, resolved.
  rewrite (falsy_nonempty _ (auth_form_nonempty _ A)).
  rewrite (proxyType_auth _ A). unfold bind, lift, to_string at 1.
  rewrite (split_proxy_auth _ _ _ _ H1 H2 H3 H4).
  cbn [proxyHost proxyPort proxyAuth proxyPassword to_string].
  destruct (test hasNumber host); cbn [negb]; [reflexivity |].
  unfold lookup. destruct (dns_lookup env (length tr) host); reflexivity.
Qed.

Lemma convertProxy_invalid (proxy : str) this tr :
  proxy <> [] -> ~ direct_form proxy -> ~ auth_form proxy ->
  convertProxy env (Some proxy) this tr = (Exn (InvalidFormat proxy), this, tr).
Proof.
  intros N D A. unfold convertProxy, proxyType.
  rewrite (falsy_nonempty _ N). simpl to_string.
  destruct (test directPattern proxy) eqn:TD;
    [apply directPattern_spec in TD; contradiction |].
  destruct (test authPattern proxy) eqn:TA;
    [apply authPattern_spec in TA; contradiction |].
  reflexivity.
Qed.

Lemma convertProxy_undefined proxy this tr :
  falsy proxy = true ->
  convertProxy env proxy this tr = (Exn ProxyUndefined, this, tr).
Proof. intros F. unfold convertProxy. now rewrite F. Qed.

Lemma host_of_direct host port :
  run host_unit host -> run digit port -> host_of (host ++ js ":" ++ port) = host.
Proof.
  intros H1 H2. unfold host_of.
  rewrite proxyType_direct by (exists host, port; auto).
  now rewrite split_proxy_direct.
Qed.

Lemma host_of_auth user pass host port :
  run credential_unit user -> run credential_unit pass ->
  run auth_host_unit host -> run digit port ->
  host_of (user ++ js ":" ++ pass ++ js "@" ++ host ++ js ":" ++ port) = host.
Proof.
  intros H1 H2 H3 H4. unfold host_of.
  rewrite proxyType_auth by (exists user, pass, host, port; auto).
  now rewrite split_proxy_auth.
Qed.

(** The four ways a conversion ends. *)
Lemma convertProxy_cases proxy this tr :
  let r := convertProxy env proxy this tr in
  (exists e, r = (Exn e, this, tr)) \/
  (exists p, proxy = Some p /\ needs_lookup p = false /\ r = (Val p, this, tr)) \/
  (exists p q address,
      proxy = Some p /\ needs_lookup p = true /\
      dns_lookup env (length tr) (host_of p) = Some address /\
      r = (Val q, this, tr ++ [EvDns (host_of p) (Some address)])) \/
  (exists p,
      proxy = Some p /\ needs_lookup p = true /\
      dns_lookup env (length tr) (host_of p) = None /\
      r = (Exn (ResolveFailed (host_of p)), this, tr ++ [EvDns (host_of p) None])).
Proof.
  intros r. subst r.
  destruct (falsy proxy) eqn:F.
  { left. eexists. now apply convertProxy_undefined. }
  destruct proxy as [p |]; [| discriminate].
  assert (N : p <> []) by (now destruct p).
  destruct (proxyType (Some p)) as [t | e |] eqn:T;
    [| unfold proxyType in T; rewrite F in T; simpl in T;
       destruct (test directPattern p), (test authPattern p); discriminate ..].
  pose proof (proxyType_cases _ _ T) as C. destruct t.
  - destruct C as (host & port & -> & H1 & H2).
    rewrite (convertProxy_direct _ _ _ _ H1 H2). unfold resolved.
    pose proof (host_of_direct _ _ H1 H2) as HO.
    assert (NL : needs_lookup (host ++ js ":" ++ port) = negb (test hasNumber host))
      by (unfold needs_lookup; now rewrite T, HO).
    destruct (test hasNumber host); [| destruct (dns_lookup env (length tr) host) eqn:L].
    + right. left. exists (host ++ js ":" ++ port). auto.
    + right. right. left.
      exists (host ++ js ":" ++ port), (l ++ js ":" ++ port), l. rewrite HO. auto.
    + right. right. right. exists (host ++ js ":" ++ port). rewrite HO. auto.
  - destruct C as (user & pass & host & port & -> & H1 & H2 & H3 & H4).
    rewrite (convertProxy_auth _ _ _ _ _ _ H1 H2 H3 H4). unfold resolved.
    pose proof (host_of_auth _ _ _ _ H1 H2 H3 H4) as HO.
    set (p := user ++ js ":" ++ pass ++ js "@" ++ host ++ js ":" ++ port) in *.
    assert (NL : needs_lookup p = negb (test hasNumber host))
      by (unfold needs_lookup; now rewrite T, HO).
    destruct (test hasNumber host); [| destruct (dns_lookup env (length tr) host) eqn:L].
    + right. left. exists p. auto.
    + right. right. left.
      exists p, (user ++ js ":" ++ pass ++ js "@" ++ l ++ js ":" ++ port), l.
      rewrite HO. auto.
    + right. right. right. exists p. rewrite HO. auto.
  - destruct C as (_ & D & A). left. eexists. now apply convertProxy_invalid.
Qed.

End Conversion.

(** ** Dotted quads *)

(** A pattern without assertions matches whatever surrounds the string. *)
Lemma matches_pure r b s k :
  matches r b s k -> pure r = true -> forall b' k', matches r b' s k'.
Proof.
  induction 1; simpl; intros P b' k'; try discriminate.
  - constructor.
  - now constructor.
  - apply andb_true_iff in P as [P1 P2]. constructor; auto.
  - apply andb_true_iff in P as [P1 P2]. apply MAltL; auto.
  - apply andb_true_iff in P as [P1 P2]. apply MAltR; auto.
  - constructor.
  - constructor; auto.
Qed.

Lemma below_256 n : n < 256 -> In n (seq 0 256).
Proof. intros H. apply in_seq. lia. Qed.

Lemma octet_decimal n b k : n < 256 -> matches octet b (decimal n) k.
Proof.
  intros H.
  assert (T : forallb (fun n => test (Seq (Bol :: [octet] ++ [Eol])) (decimal n)) (seq 0 256) = true)
    by (vm_compute; reflexivity).
  rewrite forallb_forall in T. specialize (T n (below_256 n H)).
  apply test_anchored in T. cbn [Seq fold_right] in T.
  apply matches_Cat_inv in T as (s1 & s2 & E & T1 & T2).
  apply matches_Eps_inv in T2 as ->. rewrite app_nil_r in E. subst s1.
  apply (matches_pure _ _ _ _ T1). reflexivity.
Qed.

Lemma decimal_host_units n : n < 256 -> forallb host_unit (decimal n) = true.
Proof.
  intros H.
  assert (T : forallb (fun n => forallb host_unit (decimal n)) (seq 0 256) = true)
    by (vm_compute; reflexivity).
  rewrite forallb_forall in T. exact (T n (below_256 n H)).
Qed.

Lemma decimal_cons n : exists c s, decimal n = c :: s.
Proof. unfold decimal. destruct (n <? 10), (n <? 100); eauto. Qed.

Lemma group_inner n b c k :
  n < 256 -> matches quad_group b (decimal n ++ js ".") (c :: k).
Proof.
  intros H. apply (matches_Cat_intro _ _ _ _ (decimal n) (js ".")); [reflexivity | |].
  - now apply octet_decimal.
  - apply MAltL. apply (matches_Cat_intro _ _ _ _ (js ".") []); [reflexivity | |].
    + apply (MChr _ "."%char). reflexivity.
    + constructor.
Qed.

Lemma group_last n b : n < 256 -> matches quad_group b (decimal n) [].
Proof.
  intros H. apply (matches_Cat_intro _ _ _ _ (decimal n) []); [now rewrite app_nil_r | |].
  - now apply octet_decimal.
  - apply MAltR. constructor.
Qed.

Lemma hasNumber_ipv4 host : ipv4_literal host -> test hasNumber host = true.
Proof.
  intros (a & b & c & d & Ha & Hb & Hc & Hd & ->).
  unfold hasNumber. fold quad_group.
  change (test _ ?h = true) with
    (test (Seq (Bol :: [Rep 4 quad_group] ++ [Eol])) h = true).
  apply test_anchored. cbn [Seq fold_right Rep].
  destruct (decimal_cons b) as (cb & sb & Eb).
  destruct (decimal_cons c) as (cc & sc & Ec).
  destruct (decimal_cons d) as (cd & sd & Ed).
  apply (matches_Cat_intro _ _ _ _
           (decimal a ++ js "." ++ decimal b ++ js "." ++ decimal c ++ js "." ++ decimal d) []);
    [now rewrite app_nil_r | | constructor].
  apply (matches_Cat_intro _ _ _ _ (decimal a ++ js ".")
           (decimal b ++ js "." ++ decimal c ++ js "." ++ decimal d));
    [now rewrite <- app_assoc | |].
  { rewrite Eb. simpl. now apply group_inner. }
  apply (matches_Cat_intro _ _ _ _ (decimal b ++ js ".")
           (decimal c ++ js "." ++ decimal d));
    [now rewrite <- app_assoc | |].
  { rewrite Ec. simpl. now apply group_inner. }
  apply (matches_Cat_intro _ _ _ _ (decimal c ++ js ".") (decimal d));
    [now rewrite <- app_assoc | |].
  { rewrite Ed. simpl. now apply group_inner. }
  apply (matches_Cat_intro _ _ _ _ (decimal d) []);
    [now rewrite app_nil_r | | constructor].
  now apply group_last.
Qed.

Lemma ipv4_host_units host : ipv4_literal host -> run host_unit host.
Proof.
  intros (a & b & c & d & Ha & Hb & Hc & Hd & ->). split.
  - destruct (decimal_cons a) as (ca & sa & ->). discriminate.
  - rewrite !forallb_app, !decimal_host_units by assumption. reflexivity.
Qed.

Ltac code_units :=
  repeat match goal with
  | H : lit _ ?c = true |- _ => apply lit_eq in H; subst c
  | H : range _ _ ?c = true |- _ =>
      destruct c as [[] [] [] [] [] [] [] []]; try discriminate H; clear H
  | H : digit ?c = true |- _ =>
      destruct c as [[] [] [] [] [] [] [] []]; try discriminate H; clear H
  end.

Ltac as_octet :=
  match goal with
  | |- exists n, n < 256 /\ ?s = decimal n =>
      exists (numeral_value s); split; [vm_compute; lia | reflexivity]
  end.

Lemma octet_sound b s k : matches octet b s k -> exists n, n < 256 /\ s = decimal n.
Proof.
  unfold octet. cbn [Seq fold_right]. intros H.
  apply matches_Alt_inv in H as [H | H].
  - apply matches_Cat_inv in H as (s1 & r1 & -> & H1 & H).
    apply matches_Cat_inv in H as (s2 & r2 & -> & H2 & H).
    apply matches_Cat_inv in H as (s3 & r3 & -> & H3 & H).
    apply matches_Eps_inv in H as ->.
    apply matches_Chr_inv in H1 as (c1 & -> & C1).
    apply matches_Chr_inv in H2 as (c2 & -> & C2).
    apply matches_Chr_inv in H3 as (c3 & -> & C3).
    code_units; as_octet.
  - apply matches_Cat_inv in H as (s1 & s2 & -> & H1 & H2).
    apply matches_Chr_inv in H2 as (d & -> & D).
    apply matches_Alt_inv in H1 as [H1 | H1]; [| apply matches_Alt_inv in H1 as [H1 | H1];
      [| apply matches_Alt_inv in H1 as [H1 | H1]]].
    + apply matches_Cat_inv in H1 as (x1 & x2 & -> & X1 & X2).
      apply matches_Chr_inv in X1 as (c1 & -> & C1).
      apply matches_Chr_inv in X2 as (c2 & -> & C2).
      code_units; as_octet.
    + apply matches_Cat_inv in H1 as (x1 & x2 & -> & X1 & X2).
      apply matches_Chr_inv in X1 as (c1 & -> & C1).
      apply matches_Chr_inv in X2 as (c2 & -> & C2).
      code_units; as_octet.
    + apply matches_Chr_inv in H1 as (c1 & -> & C1).
      code_units; as_octet.
    + apply matches_Eps_inv in H1 as ->.
      code_units; as_octet.
Qed.

Lemma group_sound b s k :
  matches quad_group b s k ->
  exists n, n < 256 /\
            ((s = decimal n ++ js "." /\ k <> []) \/ (s = decimal n /\ k = [])).
Proof.
  unfold quad_group. intros H.
  apply matches_Cat_inv in H as (s1 & s2 & -> & H1 & H2).
  apply octet_sound in H1 as (n & N & ->). exists n. split; [exact N |].
  apply matches_Alt_inv in H2 as [H2 | H2].
  - apply matches_Cat_inv in H2 as (x1 & x2 & -> & X1 & X2).
    apply matches_Chr_inv in X1 as (c & -> & C). apply lit_eq in C as ->.
    apply matches_NotEol_inv in X2 as [-> K]. left. split; [reflexivity | exact K].
  - apply matches_Eol_inv in H2 as [-> ->]. right. now rewrite app_nil_r.
Qed.

Lemma group_nonempty b s k : matches quad_group b s k -> s <> [].
Proof.
  intros H. apply group_sound in H as (n & _ & [[-> _] | [-> _]]);
    destruct (decimal_cons n) as (c & t & ->); discriminate.
Qed.

(** The pattern [hasNumber] accepts exactly the dotted quads. *)
Lemma hasNumber_spec host : test hasNumber host = true <-> ipv4_literal host.
Proof.
  split; [| apply hasNumber_ipv4].
  unfold hasNumber. fold quad_group.
  change (test _ host = true) with
    (test (Seq (Bol :: [Rep 4 quad_group] ++ [Eol])) host = true).
  rewrite test_anchored. cbn [Seq fold_right Rep]. intros H.
  apply matches_Cat_inv in H as (s & e & -> & H & E). apply matches_Eps_inv in E as ->.
  apply matches_Cat_inv in H as (s1 & r1 & -> & G1 & H).
  apply matches_Cat_inv in H as (s2 & r2 & -> & G2 & H).
  apply matches_Cat_inv in H as (s3 & r3 & -> & G3 & H).
  apply matches_Cat_inv in H as (s4 & r4 & -> & G4 & H).
  apply matches_Eps_inv in H as ->.
  pose proof (group_nonempty _ _ _ G2) as N2.
  pose proof (group_nonempty _ _ _ G3) as N3.
  pose proof (group_nonempty _ _ _ G4) as N4.
  apply group_sound in G1 as (a & A & [[-> _] | [_ K]]);
    [| exfalso; destruct s2; [now apply N2 | discriminate K]].
  apply group_sound in G2 as (b & B & [[-> _] | [_ K]]);
    [| exfalso; destruct s3; [now apply N3 | discriminate K]].
  apply group_sound in G3 as (c & C & [[-> _] | [_ K]]);
    [| exfalso; destruct s4; [now apply N4 | discriminate K]].
  apply group_sound in G4 as (d & D & [[_ K] | [-> _]]); [now exfalso; apply K |].
  exists a, b, c, d. repeat split; auto.
  now rewrite !app_nil_r, <- !app_assoc.
Qed.

(** A lookup is needed exactly for a well-formed candidate whose host is not
    a dotted quad. *)
Lemma needs_lookup_spec (proxy : str) :
  needs_lookup proxy = true <->
  (direct_form proxy \/ auth_form proxy) /\ ~ ipv4_literal (host_of proxy).
Proof.
  unfold needs_lookup. rewrite <- hasNumber_spec.
  destruct (proxyType (Some proxy)) as [t | e |] eqn:T.
  - pose proof (proxyType_cases _ _ T) as C. destruct t.
    + rewrite negb_true_iff, not_true_iff_false. tauto.
    + rewrite negb_true_iff, not_true_iff_false. tauto.
    + split; [discriminate | tauto].
  - split; [discriminate |]. intros [[D | A] _].
    + rewrite (proxyType_direct _ D) in T. discriminate.
    + rewrite (proxyType_auth _ A) in T. discriminate.
  - split; [discriminate |]. intros [[D | A] _].
    + rewrite (proxyType_direct _ D) in T. discriminate.
    + rewrite (proxyType_auth _ A) in T. discriminate.
Qed.

(** ** Strings in arrays *)

Lemma str_eqb_eq (a : str) : forall b, str_eqb a b = true <-> a = b.
Proof.
  induction a as [| x a IH]; destruct b as [| y b]; simpl; try (split; [discriminate | discriminate]).
  - split; reflexivity.
  - unfold ascii_eqb. rewrite andb_true_iff, Ascii.eqb_eq, IH. split.
    + now intros [-> ->].
    + now intros [= -> ->].
Qed.

Lemma includes_In l (x : str) : includes l x = true <-> In x l.
Proof.
  unfold includes. rewrite existsb_exists. split.
  - intros (y & I & E). apply str_eqb_eq in E. now subst.
  - intros I. exists x. split; [exact I | now apply str_eqb_eq].
Qed.

Lemma includes_false l (x : str) : includes l x = false <-> ~ In x l.
Proof. rewrite <- includes_In. now destruct (includes l x). Qed.

Lemma probes_app tr1 tr2 : probes (tr1 ++ tr2) = probes tr1 ++ probes tr2.
Proof.
  induction tr1 as [| e tr1 IH]; simpl; [reflexivity |].
  destruct e as [| | ? [p |] ? | |]; simpl; now rewrite IH.
Qed.

(** ** Option validation *)

Lemma well_typed_fields o :
  well_typed o = true ->
  exists v i t u f,
    o = mkOptions (JBool v) (JStr i) (JNum t) (JStr u) (JBool f).
Proof.
  destruct o as [v i t u f]. unfold well_typed. simpl.
  rewrite !andb_true_iff. intros (Hv & Hi & Ht & Hu & Hf & _).
  destruct v; try discriminate. destruct i; try discriminate.
  destruct t; try discriminate. destruct u; try discriminate.
  destruct f; try discriminate. repeat eexists.
Qed.

Lemma validateOptions_validated this tr :
  validated this -> validateOptions this tr = (Val true, this, tr).
Proof.
  intros (o & E & W). apply well_typed_fields in W as (v & i & t & u & f & ->).
  destruct this as [l oo c]. simpl in E. subst oo. reflexivity.
Qed.

Lemma validateOptions_frame this tr :
  trace (validateOptions this tr) = tr /\
  proxyList (final (validateOptions this tr)) = proxyList this /\
  cache (final (validateOptions this tr)) = cache this.
Proof.
  unfold validateOptions.
  match goal with |- context [if ?c then _ else _] => destruct c end; auto.
Qed.

Lemma validateOptions_cases this tr :
  (result (validateOptions this tr) = Val true /\ validated (final (validateOptions this tr))) \/
  result (validateOptions this tr) = Exn InvalidOptions.
Proof.
  unfold validateOptions.
  match goal with |- context [if ?c then _ else _] => destruct c eqn:C end; [now right | left].
  split; [reflexivity |]. unfold final. cbn [fst snd].
  eexists. split; [reflexivity |].
  rewrite !orb_false_iff, !negb_false_iff in C. destruct C as ((((C1 & C2) & C3) & C4) & C5).
  unfold well_typed. cbn [forallb fields get documented_type].
  cbn [verbose verboseIdentifier maxTimeout pingUrl forceRetry] in *.
  now rewrite C1, C2, C3, C4, C5.
Qed.

Lemma validateOptions_run this tr :
  exists r this',
    validateOptions this tr = (r, this', tr) /\
    proxyList this' = proxyList this /\ cache this' = cache this /\
    ((r = Val true /\ validated this') \/ r = Exn InvalidOptions).
Proof.
  destruct (validateOptions_frame this tr) as (T & L & C).
  pose proof (validateOptions_cases this tr) as K.
  destruct (validateOptions this tr) as [[r this'] tr'].
  unfold trace, final, result in *. cbn [fst snd] in *. subst tr'.
  exists r, this'. auto.
Qed.

(** ** The probe *)

Section Runs.

Variable env : Env.

Lemma log_run line this tr :
  exists evs, log line this tr = (Val tt, this, tr ++ evs) /\
              probes evs = [] /\ existsb network_event evs = false.
Proof.
  unfold log. destruct (truthy (opt verbose this)).
  - eexists. split; [reflexivity |]. split; reflexivity.
  - exists []. rewrite app_nil_r. auto.
Qed.

Lemma probe_run proxy this tr :
  exists evs,
    probe env proxy this tr =
      (Val (in_time (http_get env (length tr) (opt pingUrl this) (Some proxy)
                       (opt maxTimeout this)) (opt maxTimeout this)),
       this,
       tr ++ EvRequest (opt pingUrl this) (Some proxy) (opt maxTimeout this) :: evs) /\
    probes evs = [].
Proof.
  unfold probe, bind, request, not_working, emit, ret, in_time.
  destruct (http_get env (length tr) (opt pingUrl this) (Some proxy) (opt maxTimeout this))
    as [elapsed | |].
  - destruct (exceeds elapsed (opt maxTimeout this)); cbn [negb].
    + unfold bind.
      destruct (log_run (LogNotWorking proxy RequestTimedOut) this
                  (tr ++ [EvRequest (opt pingUrl this) (Some proxy) (opt maxTimeout this)]))
        as (evs & -> & P & _).
      exists evs. rewrite <- app_assoc. auto.
    + unfold bind.
      destruct (log_run (LogWorking proxy elapsed) this
                  (tr ++ [EvRequest (opt pingUrl this) (Some proxy) (opt maxTimeout this)]))
        as (evs & -> & P & _).
      exists evs. rewrite <- app_assoc. auto.
  - unfold bind.
    destruct (log_run (LogNotWorking proxy RequestFailed) this
                ((tr ++ [EvRequest (opt pingUrl this) (Some proxy) (opt maxTimeout this)]) ++ [EvAbort]))
      as (evs & -> & P & _).
    exists (EvAbort :: evs). rewrite <- !app_assoc. auto.
  - unfold bind.
    destruct (log_run (LogNotWorking proxy RequestTimedOut) this
                ((tr ++ [EvRequest (opt pingUrl this) (Some proxy) (opt maxTimeout this)]) ++ [EvAbort]))
      as (evs & -> & P & _).
    exists (EvAbort :: evs). rewrite <- !app_assoc. auto.
Qed.

(** ** Conversion: what it leaves alone *)

Lemma convertProxy_run proxy this tr :
  exists r evs,
    convertProxy env proxy this tr = (r, this, tr ++ evs) /\ probes evs = [].
Proof.
  destruct (convertProxy_cases env proxy this tr) as
    [(e & ->) | [(p & _ & _ & ->) | [(p & q & a & _ & _ & _ & ->) | (p & _ & _ & _ & ->)]]].
  - exists (Exn e), []. now rewrite app_nil_r.
  - exists (Val p), []. now rewrite app_nil_r.
  - eexists _, _. split; reflexivity.
  - eexists _, _. split; reflexivity.
Qed.

(** A candidate that needs no lookup converts to itself, or is refused, in
    every state and at every time. *)
Lemma convertProxy_no_lookup p :
  needs_lookup p = false ->
  (forall this tr, convertProxy env (Some p) this tr = (Val p, this, tr)) \/
  (exists e, forall this tr, convertProxy env (Some p) this tr = (Exn e, this, tr)).
Proof.
  intros NL.
  destruct (falsy (Some p)) eqn:F.
  { right. exists ProxyUndefined. intros. now apply convertProxy_undefined. }
  assert (N : p <> []) by (now destruct p).
  destruct (proxyType (Some p)) as [t | e |] eqn:T;
    [| unfold proxyType in T; rewrite F in T; simpl in T;
       destruct (test directPattern p), (test authPattern p); discriminate ..].
  pose proof (proxyType_cases _ _ T) as C. destruct t.
  - destruct C as (host & port & -> & H1 & H2). left. intros this tr.
    rewrite (convertProxy_direct _ _ _ _ _ H1 H2). unfold resolved.
    unfold needs_lookup in NL. rewrite T, (host_of_direct _ _ H1 H2) in NL.
    apply negb_false_iff in NL. now rewrite NL.
  - destruct C as (user & pass & host & port & -> & H1 & H2 & H3 & H4). left. intros this tr.
    rewrite (convertProxy_auth _ _ _ _ _ _ _ H1 H2 H3 H4). unfold resolved.
    unfold needs_lookup in NL. rewrite T, (host_of_auth _ _ _ _ H1 H2 H3 H4) in NL.
    apply negb_false_iff in NL. now rewrite NL.
  - destruct C as (_ & D & A). right. eexists. intros. now apply convertProxy_invalid.
Qed.

(** The same with the error named: the empty string is refused as
    undefined, a malformed candidate as invalid. *)
Lemma convertProxy_no_lookup_cases p :
  needs_lookup p = false ->
  (forall this tr, convertProxy env (Some p) this tr = (Val p, this, tr)) \/
  (p = [] /\
   forall this tr, convertProxy env (Some p) this tr = (Exn ProxyUndefined, this, tr)) \/
  (proxyType (Some p) = Val Invalid /\
   forall this tr, convertProxy env (Some p) this tr = (Exn (InvalidFormat p), this, tr)).
Proof.
  intros NL.
  destruct (falsy (Some p)) eqn:F.
  { right. left. split; [destruct p; [reflexivity | discriminate] |].
    intros. now apply convertProxy_undefined. }
  assert (N : p <> []) by (now destruct p).
  destruct (proxyType (Some p)) as [t | e |] eqn:T;
    [| unfold proxyType in T; rewrite F in T; simpl in T;
       destruct (test directPattern p), (test authPattern p); discriminate ..].
  pose proof (proxyType_cases _ _ T) as C. destruct t.
  - destruct C as (host & port & -> & H1 & H2). left. intros this tr.
    rewrite (convertProxy_direct _ _ _ _ _ H1 H2). unfold resolved.
    unfold needs_lookup in NL. rewrite T, (host_of_direct _ _ H1 H2) in NL.
    apply negb_false_iff in NL. now rewrite NL.
  - destruct C as (user & pass & host & port & -> & H1 & H2 & H3 & H4). left. intros this tr.
    rewrite (convertProxy_auth _ _ _ _ _ _ _ H1 H2 H3 H4). unfold resolved.
    unfold needs_lookup in NL. rewrite T, (host_of_auth _ _ _ _ H1 H2 H3 H4) in NL.
    apply negb_false_iff in NL. now rewrite NL.
  - destruct C as (_ & D & A). right. right. split; [reflexivity |].
    intros. now apply convertProxy_invalid.
Qed.

Lemma convertProxy_value_nonempty proxy this tr q this' tr' :
  convertProxy env proxy this tr = (Val q, this', tr') ->
  exists p, proxy = Some p /\ falsy proxy = false.
Proof.
  intros H. destruct (falsy proxy) eqn:F.
  - rewrite (convertProxy_undefined env _ this tr F) in H. discriminate.
  - destruct proxy as [p |]; [eauto | discriminate].
Qed.


(** ** One cycle of [getProxy] *)

Lemma testProxy_validated proxy this tr :
  validated this -> falsy proxy = false ->
  testProxy env proxy this tr = (q <- convertProxy env proxy ;; probe env q) this tr.
Proof.
  intros V F. unfold testProxy. unfold bind at 1.
  rewrite (validateOptions_validated _ _ V). now rewrite F.
Qed.

(** The rounded product lies within half a unit in the last place of the
    product, and on the grid of that unit. *)
Lemma round_to_double_spec p :
  exists s half,
    (half * 2 ^ 53 <= p)%N /\
    (p <= round_to_double p + half)%N /\ (round_to_double p <= p + half)%N /\
    (s = N.log2 p + 1 - 53)%N /\
    (forall m, (m * 2 ^ s <= p -> m * 2 ^ s <= round_to_double p)%N).
Proof.
  unfold round_to_double.
  set (s := (N.log2 p + 1 - 53)%N).
  destruct (0 <? s)%N eqn:S; cbn [andb].
  2:{ exists s, 0%N. repeat split; try lia. }
  apply N.ltb_lt in S.
  assert (P : (0 < p)%N).
  { destruct p; [| lia]. simpl in s. subst s. simpl in S. lia. }
  pose proof (N.log2_spec p P) as [L1 L2].
  assert (E : N.log2 p = (s - 1 + 53)%N) by lia.
  assert (T : (2 ^ s = 2 * 2 ^ (s - 1))%N).
  { replace s with (N.succ (s - 1)) at 1 by lia. apply N.pow_succ_r'. }
  rewrite E, N.pow_add_r in L1.
  set (half := (2 ^ (s - 1))%N) in *.
  assert (Hh : (0 < half)%N) by (subst half; apply N.neq_0_lt_0, N.pow_nonzero; lia).
  pose proof (N.div_mod p (2 ^ s) ltac:(lia)) as DM.
  pose proof (N.mod_lt p (2 ^ s) ltac:(lia)) as ML.
  set (q := (p / 2 ^ s)%N) in *. set (r := (p mod 2 ^ s)%N) in *.
  exists s, half. split; [lia |].
  destruct ((half <? r)%N || ((r =? half)%N && N.odd q)) eqn:C.
  - assert (R : (half <= r)%N).
    { apply orb_true_iff in C as [C | C].
      - apply N.ltb_lt in C. lia.
      - apply andb_true_iff in C as [C _]. apply N.eqb_eq in C. lia. }
    repeat split; try nia.
  - assert (R : (r <= half)%N).
    { apply orb_false_iff in C as [C _]. apply N.ltb_ge in C. exact C. }
    repeat split; try lia; intros; lia.
Qed.

Lemma floor_scaled_bound k len :
  (k < 2 ^ 53)%N -> 0 < len -> floor_scaled k len < len.
Proof.
  intros K L. unfold floor_scaled.
  destruct (round_to_double_spec (k * N.of_nat len)) as (s & half & H1 & _ & H2 & _).
  assert (round_to_double (k * N.of_nat len) / 2 ^ 53 < N.of_nat len)%N; [| lia].
  apply N.Div0.div_lt_upper_bound. nia.
Qed.

Lemma select_run this tr :
  select env this tr =
  convertProxy env
    (nth_error (remaining this)
       (floor_scaled (math_random env (length tr) mod 2 ^ 53) (length (remaining this))))
    this (tr ++ [EvRandom (math_random env (length tr) mod 2 ^ 53)]).
Proof. reflexivity. Qed.

(** The draw: nothing when no candidate remains, else one of them. *)
Lemma drawn_remaining this k :
  (k < 2 ^ 53)%N ->
  match nth_error (remaining this) (floor_scaled k (length (remaining this))) with
  | Some c => In c (remaining this)
  | None => remaining this = []
  end.
Proof.
  intros K. destruct (remaining this) as [| c0 l] eqn:R.
  - now destruct (floor_scaled k (length (@nil str))).
  - pose proof (floor_scaled_bound k (length (c0 :: l)) K ltac:(simpl; lia)) as B.
    destruct (nth_error (c0 :: l) _) eqn:E.
    + now apply nth_error_In in E.
    + apply nth_error_None in E. lia.
Qed.

Lemma random_below t : (math_random env t mod 2 ^ 53 < 2 ^ 53)%N.
Proof. apply N.mod_lt. discriminate. Qed.

Lemma remaining_In this c :
  In c (remaining this) <-> In c (proxyList this) /\ ~ In c (cache this).
Proof.
  unfold remaining. rewrite filter_In, negb_true_iff, includes_false. tauto.
Qed.

Lemma validated_set_cache this c : validated this -> validated (set_cache this c).
Proof. intros (o & E & W). exists o. auto. Qed.


Lemma cycle_after_select this tr :
  cycle env this tr =
  match select env this tr with
  | (Val proxy, this1, tr1) =>
      (mark proxy ;; log (LogTrying proxy) ;;
       workingProxy <- testProxy env (Some proxy) ;;
       ret (if workingProxy then Some proxy else None)) this1 tr1
  | (Exn e, this1, tr1) => (Exn e, this1, tr1)
  | (NoFuel, this1, tr1) => (NoFuel, this1, tr1)
  end.
Proof. reflexivity. Qed.

Lemma select_frame this tr :
  exists r evs, select env this tr = (r, this, tr ++ evs) /\ probes evs = [].
Proof.
  rewrite select_run.
  destruct (convertProxy_run
              (nth_error (remaining this)
                 (floor_scaled (math_random env (length tr) mod 2 ^ 53) (length (remaining this))))
              this (tr ++ [EvRandom (math_random env (length tr) mod 2 ^ 53)]))
    as (r & evs & -> & P).
  exists r, (EvRandom (math_random env (length tr) mod 2 ^ 53) :: evs).
  rewrite <- app_assoc. auto.
Qed.

Lemma getProxy_step fuel this tr :
  getProxy env (S fuel) this tr =
  match validateOptions this tr with
  | (Val _, this0, tr0) =>
      match cycle env this0 tr0 with
      | (Val (Some proxy), this1, tr1) => (Val proxy, this1, tr1)
      | (Val None, this1, tr1) => getProxy env fuel this1 tr1
      | (Exn e, this1, tr1) =>
          if truthy (opt forceRetry this1)
          then getProxy env fuel (set_cache this1 []) (trace (log (LogRetrying e) this1 tr1))
          else (Exn (Rethrown e), this1, tr1)
      | (NoFuel, this1, tr1) => (NoFuel, this1, tr1)
      end
  | (Exn e, this0, tr0) => (Exn e, this0, tr0)
  | (NoFuel, this0, tr0) => (NoFuel, this0, tr0)
  end.
Proof.
  cbn [getProxy]. unfold bind, try_catch, ret.
  destruct (validateOptions this tr) as [[[b | e |] this0] tr0]; try reflexivity.
  destruct (cycle env this0 tr0) as [[[[p |] | e |] this1] tr1]; try reflexivity.
  destruct (truthy (opt forceRetry this1)); [| reflexivity].
  unfold log, resetCache, trace.
  destruct (truthy (opt verbose this1)); reflexivity.
Qed.


(** A cycle over candidates that need no lookup: it throws before any probe,
    or probes one remaining candidate and enters it in the cache; the cycle
    reports the candidate exactly when the request was answered in time. *)
Lemma cycle_literal this tr :
  validated this ->
  (forall c, In c (proxyList this) -> needs_lookup c = false) ->
  (exists e evs,
      cycle env this tr = (Exn e, this, tr ++ evs) /\ probes evs = [] /\
      ((e = ProxyUndefined /\ (remaining this = [] \/ In [] (remaining this))) \/
       (exists q, e = InvalidFormat q /\ In q (remaining this) /\
                  proxyType (Some q) = Val Invalid))) \/
  (exists p before after,
      In p (remaining this) /\
      cycle env this tr =
        (Val (if in_time (http_get env (length (tr ++ before)) (opt pingUrl this) (Some p)
                            (opt maxTimeout this)) (opt maxTimeout this)
              then Some p else None),
         set_cache this (cache this ++ [p]),
         tr ++ before ++ EvRequest (opt pingUrl this) (Some p) (opt maxTimeout this) :: after) /\
      probes before = [] /\ probes after = []).
Proof.
  intros V L. rewrite cycle_after_select, select_run.
  set (k := (math_random env (length tr) mod 2 ^ 53)%N).
  pose proof (drawn_remaining this k (random_below _)) as D.
  destruct (nth_error (remaining this) (floor_scaled k (length (remaining this)))) as [c |].
  - pose proof D as D'. apply remaining_In in D' as [Il Ic].
    destruct (convertProxy_no_lookup_cases c (L c Il)) as [C | [[-> C] | [T C]]].
    + right. rewrite C.
      destruct (convertProxy_value_nonempty _ _ _ _ _ _ (C this tr)) as (_ & _ & F).
      unfold bind at 1. unfold mark. apply includes_false in Ic. rewrite Ic. cbn [negb].
      unfold bind at 1.
      destruct (log_run (LogTrying c) (set_cache this (cache this ++ [c])) (tr ++ [EvRandom k]))
        as (evs1 & -> & P1 & _).
      unfold bind at 1.
      rewrite (testProxy_validated _ _ _ (validated_set_cache _ _ V) F).
      unfold bind at 1. rewrite C.
      destruct (probe_run c (set_cache this (cache this ++ [c])) ((tr ++ [EvRandom k]) ++ evs1))
        as (evs2 & -> & P2).
      exists c, ([EvRandom k] ++ evs1), evs2. split; [exact D |]. split.
      * unfold ret. rewrite <- !app_assoc. reflexivity.
      * split; [| exact P2]. rewrite probes_app, P1. reflexivity.
    + left. rewrite C. exists ProxyUndefined, [EvRandom k].
      split; [reflexivity |]. split; [reflexivity |]. left. split; [reflexivity | now right].
    + left. rewrite C. exists (InvalidFormat c), [EvRandom k].
      split; [reflexivity |]. split; [reflexivity |]. right. now exists c.
  - left. rewrite convertProxy_undefined by reflexivity.
    exists ProxyUndefined, [EvRandom k].
    split; [reflexivity |]. split; [reflexivity |]. left. split; [reflexivity | now left].
Qed.


(** ** Termination over candidates that need no lookup *)

Lemma filter_length_lt {A} (f g : A -> bool) l x :
  (forall y, f y = true -> g y = true) ->
  In x l -> g x = true -> f x = false ->
  length (filter f l) < length (filter g l).
Proof.
  intros I. induction l as [| y l IH]; simpl; intros Hin Gx Fx; [contradiction |].
  assert (W : length (filter f l) <= length (filter g l)).
  { clear -I. induction l as [| z l IH]; simpl; [lia |].
    destruct (f z) eqn:Fz; [rewrite (I _ Fz); simpl; lia |].
    destruct (g z); simpl; lia. }
  destruct Hin as [-> | Hin].
  - rewrite Gx, Fx. simpl. lia.
  - specialize (IH Hin Gx Fx). destruct (f y) eqn:Fy.
    + rewrite (I _ Fy). simpl. lia.
    + destruct (g y); simpl; lia.
Qed.

Lemma remaining_marked this p c :
  In c (remaining (set_cache this (cache this ++ [p]))) <->
  In c (remaining this) /\ c <> p.
Proof.
  rewrite !remaining_In. cbn [set_cache proxyList cache]. rewrite in_app_iff. simpl.
  intuition (subst; auto).
Qed.

Lemma remaining_shrinks this p :
  In p (remaining this) ->
  length (remaining (set_cache this (cache this ++ [p]))) < length (remaining this).
Proof.
  intros H. pose proof H as H'. apply remaining_In in H' as [Il Ic].
  unfold remaining. cbn [set_cache proxyList cache].
  apply (filter_length_lt _ _ _ p); auto.
  - intros y. rewrite !negb_true_iff, !includes_false, in_app_iff. tauto.
  - now rewrite negb_true_iff, includes_false.
  - rewrite negb_false_iff, includes_In, in_app_iff. right. now left.
Qed.

(** With [forceRetry] off, [getProxy] over candidates that need no lookup
    ends within one call per remaining candidate and one more. *)
Lemma getProxy_literal n : forall this tr fuel,
  validated this ->
  truthy (opt forceRetry this) = false ->
  (forall c, In c (proxyList this) -> needs_lookup c = false) ->
  length (remaining this) <= n -> n < fuel ->
  exists r this' evs,
    getProxy env fuel this tr = (r, this', tr ++ evs) /\
    ((exists p, r = Val p /\ ends_on_a_working_probe env tr evs p) \/
     (r = Exn (Rethrown ProxyUndefined) /\
      (incl (remaining this) (probes evs) \/ In [] (remaining this))) \/
     (exists q, r = Exn (Rethrown (InvalidFormat q)) /\ In q (remaining this) /\
                proxyType (Some q) = Val Invalid)) /\
    NoDup (probes evs) /\
    incl (probes evs) (remaining this).
Proof.
  assert (Thrown : forall this tr e evs,
             probes evs = [] ->
             (e = ProxyUndefined /\ (remaining this = [] \/ In [] (remaining this))) \/
             (exists q, e = InvalidFormat q /\ In q (remaining this) /\
                        proxyType (Some q) = Val Invalid) ->
             exists r this' evs',
               (Exn (Rethrown e), this, tr ++ evs) = (r, this', tr ++ evs') /\
               ((exists p, r = Val p /\ ends_on_a_working_probe env tr evs' p) \/
                (r = Exn (Rethrown ProxyUndefined) /\
                 (incl (remaining this) (probes evs') \/ In [] (remaining this))) \/
                (exists q, r = Exn (Rethrown (InvalidFormat q)) /\ In q (remaining this) /\
                           proxyType (Some q) = Val Invalid)) /\
               NoDup (probes evs') /\
               incl (probes evs') (remaining this)).
  { intros this tr e evs P K. exists (Exn (Rethrown e)), this, evs. rewrite P.
    split; [reflexivity |]. split; [| split; [apply NoDup_nil | apply incl_nil_l]].
    right. destruct K as [[-> [R | I]] | (q & -> & I & T)].
    - left. split; [reflexivity |]. left. rewrite R. apply incl_nil_l.
    - left. split; [reflexivity |]. now right.
    - right. now exists q. }
  induction n as [| n IH]; intros this tr fuel V FR L B Fu;
    (destruct fuel as [| fuel]; [lia |]);
    rewrite getProxy_step, (validateOptions_validated _ _ V);
    destruct (cycle_literal this tr V L)
      as [(e & evs & -> & P & K) | (p & before & after & I & -> & P1 & P2)].
  - rewrite FR. now apply Thrown.
  - destruct (remaining this); [contradiction | simpl in B; lia].
  - rewrite FR. now apply Thrown.
  - set (rq := EvRequest (opt pingUrl this) (Some p) (opt maxTimeout this)) in *.
    assert (P : probes (before ++ rq :: after) = [p]).
    { rewrite probes_app, P1. simpl. now rewrite P2. }
    destruct (in_time _ _) eqn:W.
    + exists (Val p), (set_cache this (cache this ++ [p])), (before ++ rq :: after).
      rewrite P. split; [reflexivity |]. split; [| split].
      * left. exists p. split; [reflexivity |].
        now exists before, (opt pingUrl this), (opt maxTimeout this), after.
      * constructor; [intros [] | constructor].
      * intros x [<- | []]. exact I.
    + pose proof (remaining_shrinks this p I) as Sh.
      destruct (IH (set_cache this (cache this ++ [p])) (tr ++ before ++ rq :: after) fuel)
        as (r & this' & evs' & E & RV & ND & IN);
        [now apply validated_set_cache | exact FR | exact L | lia | lia |].
      exists r, this', ((before ++ rq :: after) ++ evs').
      rewrite E, probes_app, P.
      split; [now rewrite <- app_assoc |]. split; [| split].
      * destruct RV as [(q & -> & b' & url & limit & a' & -> & Q1 & Q2)
                       | [(-> & [Q | Q]) | (q & -> & Q & T)]].
        -- left. exists q. split; [reflexivity |].
           exists ((before ++ rq :: after) ++ b'), url, limit, a'.
           split; [apply app_assoc |]. split; [exact Q1 |].
           now rewrite (app_assoc tr (before ++ rq :: after) b').
        -- right. left. split; [reflexivity |]. left. intros c Ic.
           destruct (list_eq_dec ascii_dec c p) as [-> | Ne]; [now left |].
           right. apply Q, remaining_marked. auto.
        -- right. left. split; [reflexivity |]. right.
           now apply remaining_marked in Q as [Q _].
        -- right. right. exists q. split; [reflexivity |]. split; [| exact T].
           now apply remaining_marked in Q as [Q _].
      * simpl. constructor; [| exact ND].
        intros H. apply IN, remaining_marked in H as [_ H]. now apply H.
      * intros x [<- | H]; [exact I |]. now apply IN, remaining_marked in H as [H _].
Qed.

End Runs.

(** ** Frames *)

Lemma keeps_bind {A B C} (f : ProxyChooser -> C) (c : M A) (k : A -> M B) :
  keeps f c -> (forall a, keeps f (k a)) -> keeps f (bind c k).
Proof.
  intros Hc Hk this tr. unfold bind. specialize (Hc this tr).
  destruct (c this tr) as [[[a | e |] this'] tr']; unfold final in *; cbn [fst snd] in *;
    [| assumption ..].
  rewrite <- Hc. apply Hk.
Qed.

Lemma keeps_ret {A C} (f : ProxyChooser -> C) (a : A) : keeps f (ret a).
Proof. intros this tr. reflexivity. Qed.

Lemma keeps_throw {A C} (f : ProxyChooser -> C) e : keeps f (@throw A e).
Proof. intros this tr. reflexivity. Qed.

Lemma keeps_lift {A C} (f : ProxyChooser -> C) (r : res A) : keeps f (lift r).
Proof. intros this tr. reflexivity. Qed.

Lemma keeps_log {C} (f : ProxyChooser -> C) line : keeps f (log line).
Proof. intros this tr. unfold log. now destruct (truthy (opt verbose this)). Qed.

Lemma keeps_emit {C} (f : ProxyChooser -> C) e : keeps f (emit e).
Proof. intros this tr. reflexivity. Qed.

Lemma keeps_validateOptions_list : keeps proxyList validateOptions.
Proof. intros this tr. apply validateOptions_frame. Qed.

Lemma keeps_validateOptions_cache : keeps cache validateOptions.
Proof. intros this tr. apply validateOptions_frame. Qed.

Section Frames.

Variable env : Env.

Lemma keeps_convertProxy {C} (f : ProxyChooser -> C) proxy : keeps f (convertProxy env proxy).
Proof.
  intros this tr. destruct (convertProxy_run env proxy this tr) as (r & evs & -> & _).
  reflexivity.
Qed.

Lemma keeps_probe {C} (f : ProxyChooser -> C) proxy : keeps f (probe env proxy).
Proof.
  intros this tr. destruct (probe_run env proxy this tr) as (evs & -> & _). reflexivity.
Qed.

Lemma keeps_testProxy_list proxy : keeps proxyList (testProxy env proxy).
Proof.
  unfold testProxy. apply keeps_bind; [apply keeps_validateOptions_list | intros _].
  destruct (falsy proxy); [apply keeps_throw |].
  apply keeps_bind; [apply keeps_convertProxy | intros q; apply keeps_probe].
Qed.

Lemma keeps_testProxy_cache proxy : keeps cache (testProxy env proxy).
Proof.
  unfold testProxy. apply keeps_bind; [apply keeps_validateOptions_cache | intros _].
  destruct (falsy proxy); [apply keeps_throw |].
  apply keeps_bind; [apply keeps_convertProxy | intros q; apply keeps_probe].
Qed.

Lemma keeps_request {C} (f : ProxyChooser -> C) url proxy limit :
  keeps f (request env url proxy limit).
Proof. intros this tr. reflexivity. Qed.

Lemma keeps_getPing_list : keeps proxyList (getPing env).
Proof.
  unfold getPing. apply keeps_bind; [apply keeps_validateOptions_list | intros _].
  intros this tr.
  apply (keeps_bind proxyList); [apply keeps_log | intros _].
  apply keeps_bind; [apply keeps_request | intros rsp].
  destruct rsp; try apply keeps_throw.
  apply keeps_bind; [apply keeps_log | intros _; apply keeps_ret].
Qed.

Lemma keeps_getPing_cache : keeps cache (getPing env).
Proof.
  unfold getPing. apply keeps_bind; [apply keeps_validateOptions_cache | intros _].
  intros this tr.
  apply (keeps_bind cache); [apply keeps_log | intros _].
  apply keeps_bind; [apply keeps_request | intros rsp].
  destruct rsp; try apply keeps_throw.
  apply keeps_bind; [apply keeps_log | intros _; apply keeps_ret].
Qed.

Lemma keeps_select {C} (f : ProxyChooser -> C) : keeps f (select env).
Proof.
  intros this tr. destruct (select_frame env this tr) as (r & evs & -> & _). reflexivity.
Qed.

Lemma keeps_mark_list proxy : keeps proxyList (mark proxy).
Proof.
  intros this tr. unfold mark.
  destruct (negb (includes (cache this) proxy)); [reflexivity |].
  now destruct (length (cache this) =? length (proxyList this)).
Qed.

Lemma keeps_cycle_list : keeps proxyList (cycle env).
Proof.
  unfold cycle. apply keeps_bind; [apply keeps_select | intros proxy].
  apply keeps_bind; [apply keeps_mark_list | intros _].
  apply keeps_bind; [apply keeps_log | intros _].
  apply keeps_bind; [apply keeps_testProxy_list | intros w; apply keeps_ret].
Qed.

Lemma keeps_getProxy_list fuel : keeps proxyList (getProxy env fuel).
Proof.
  induction fuel as [| fuel IH]; intros this tr; [reflexivity |].
  rewrite getProxy_step.
  pose proof (keeps_validateOptions_list this tr) as V.
  destruct (validateOptions this tr) as [[[b | e |] this0] tr0];
    unfold final in V; cbn [fst snd] in V; try exact V.
  pose proof (keeps_cycle_list this0 tr0) as K.
  destruct (cycle env this0 tr0) as [[[[p |] | e |] this1] tr1];
    unfold final in K; cbn [fst snd] in K; try (unfold final; cbn [fst snd]; congruence).
  - rewrite IH. congruence.
  - destruct (truthy (opt forceRetry this1)).
    + rewrite IH. cbn [set_cache proxyList]. congruence.
    + unfold final; cbn [fst snd]; congruence.
Qed.

End Frames.

Lemma two_names_validated : validated two_names.
Proof. eexists. split; reflexivity. Qed.

Lemma two_names_probed_validated : validated two_names_probed.
Proof. eexists. split; reflexivity. Qed.

(** Once [127.0.0.1:80] is in the cache, a cycle draws [localhost:80], finds
    its address in the cache, probes it again and asks for another cycle. *)
Lemma stuck_cycle rnd tr :
  exists evs,
    cycle (dead_world rnd) two_names_probed tr = (Val None, two_names_probed, tr ++ evs) /\
    probes evs = [js "127.0.0.1:80"].
Proof.
  rewrite cycle_after_select, select_run.
  set (k := (math_random (dead_world rnd) (length tr) mod 2 ^ 53)%N).
  change (remaining two_names_probed) with [js "localhost:80"].
  assert (Z : floor_scaled k (length [js "localhost:80"]) = 0).
  { pose proof (floor_scaled_bound k 1 (random_below _ _) ltac:(lia)). simpl. lia. }
  rewrite Z. cbn [nth_error].
  exists [EvRandom k; EvDns (js "localhost") (Some (js "127.0.0.1"));
          EvRequest (JStr (js "http://myexternalip.com/raw")) (Some (js "127.0.0.1:80")) (JNum 1000);
          EvAbort].
  split; [| reflexivity].
  replace (tr ++ [EvRandom k; EvDns (js "localhost") (Some (js "127.0.0.1"));
          EvRequest (JStr (js "http://myexternalip.com/raw")) (Some (js "127.0.0.1:80")) (JNum 1000);
          EvAbort])
    with ((((tr ++ [EvRandom k]) ++ [EvDns (js "localhost") (Some (js "127.0.0.1"))]) ++
          [EvRequest (JStr (js "http://myexternalip.com/raw")) (Some (js "127.0.0.1:80")) (JNum 1000)]) ++
          [EvAbort])
    by (now rewrite <- !app_assoc).
  generalize (tr ++ [EvRandom k]). intros tr1. vm_compute. reflexivity.
Qed.

(** * The claims *)

(** ** C1: termination of [getProxy] without [forceRetry] *)

Lemma stuck_forever rnd fuel : forall tr,
  result (getProxy (dead_world rnd) fuel two_names_probed tr) = NoFuel.
Proof.
  induction fuel as [| fuel IH]; intros tr; [reflexivity |].
  rewrite getProxy_step, (validateOptions_validated _ _ two_names_probed_validated).
  destruct (stuck_cycle rnd tr) as (evs & -> & _). apply IH.
Qed.

Lemma first_cycle rnd :
  result (cycle (dead_world rnd) two_names []) = Val None /\
  final (cycle (dead_world rnd) two_names []) = two_names_probed.
Proof.
  rewrite cycle_after_select, select_run.
  set (k := (math_random (dead_world rnd) (length (@nil event)) mod 2 ^ 53)%N).
  change (remaining two_names) with [js "localhost:80"; js "127.0.0.1:80"].
  pose proof (floor_scaled_bound k 2 (random_below _ _) ltac:(lia)) as B.
  change (length [js "localhost:80"; js "127.0.0.1:80"]) with 2.
  destruct (floor_scaled k 2) as [| [| i]]; [| | lia];
    generalize ([] ++ [EvRandom k]); intros tr1; vm_compute; auto.
Qed.

(** C1, the code at the failing input.  With the candidates [localhost:80]
    and [127.0.0.1:80], a resolver that maps [localhost] to [127.0.0.1],
    requests that all fail and [forceRetry] off, [getProxy] neither returns
    nor throws, whatever the random source and however long it runs: once
    [127.0.0.1:80] is in the cache, line 299 keeps [localhost:80], whose text
    is not in the cache, and the test of line 306 compares a cache of one
    address with a list of two candidates. *)
Lemma getProxy_never_ends_on_two_names :
  ~ exists rnd fuel, result (getProxy (dead_world rnd) fuel two_names []) <> NoFuel.
Proof.
  intros (rnd & fuel & H). apply H. clear H.
  destruct fuel as [| fuel]; [reflexivity |].
  rewrite getProxy_step, (validateOptions_validated _ _ two_names_validated).
  destruct (first_cycle rnd) as [R F].
  destruct (cycle (dead_world rnd) two_names []) as [[r this1] tr1].
  unfold result, final in R, F. cbn [fst snd] in R, F. subst r this1.
  apply stuck_forever.
Qed.

Lemma forceRetry_validated this tr :
  opt forceRetry (final (validateOptions this tr)) =
  or_default (opt forceRetry this) (JBool false).
Proof.
  unfold validateOptions.
  match goal with |- context [if ?c then _ else _] => destruct c end;
    unfold final, opt; cbn [fst snd set_options options forceRetry];
    destruct (options this); reflexivity.
Qed.

Lemma getProxy_validated env fuel this tr this0 :
  validateOptions this tr = (Val true, this0, tr) -> validated this0 ->
  getProxy env (S fuel) this tr = getProxy env (S fuel) this0 tr.
Proof.
  intros E V. rewrite !getProxy_step, E. now rewrite (validateOptions_validated _ _ V).
Qed.

(** ** C2: the draw *)

(** C2, the code at the failing input.  The instance holds the candidates
    [localhost:80] and [127.0.0.1:80] and the cache holds [127.0.0.1:80], the
    normalized form of both.  No candidate remains by normalized form, yet
    line 299 keeps [localhost:80], whose raw text is not in the cache; the
    cycle then probes [127.0.0.1:80] again and asks for another cycle
    instead of throwing. *)
Theorem draw_compares_raw_candidates :
  remaining_by_normalized_form (dead_world (fun _ => 0%N)) two_names_probed [] = [] /\
  remaining two_names_probed = [js "localhost:80"] /\
  result (cycle (dead_world (fun _ => 0%N)) two_names_probed []) = Val None /\
  probes (trace (cycle (dead_world (fun _ => 0%N)) two_names_probed [])) = [js "127.0.0.1:80"].
Proof. vm_compute. repeat split. Qed.

(** ** C3: the [catch] block of [getProxy] *)

Lemma testProxy_options env proxy this tr :
  validated this -> options (final (testProxy env proxy this tr)) = options this.
Proof.
  intros V. unfold testProxy, bind. rewrite (validateOptions_validated _ _ V).
  destruct (falsy proxy); [reflexivity |].
  destruct (convertProxy_run env proxy this tr) as (r & evs & -> & _).
  destruct r; try reflexivity.
  now destruct (probe_run env a this (tr ++ evs)) as (evs' & -> & _).
Qed.

Lemma cycle_options env this tr :
  validated this -> options (final (cycle env this tr)) = options this.
Proof.
  intros V. rewrite cycle_after_select.
  destruct (select_frame env this tr) as (r & evs & -> & _).
  destruct r as [proxy | e |]; try reflexivity.
  unfold bind at 1.
  assert (M : exists r this1, mark proxy this (tr ++ evs) = (r, this1, tr ++ evs) /\
                              options this1 = options this /\ validated this1).
  { unfold mark. destruct (negb (includes (cache this) proxy)).
    - eexists _, _. split; [reflexivity |]. split; [reflexivity |].
      now apply validated_set_cache.
    - destruct (length (cache this) =? length (proxyList this)); eauto. }
  destruct M as (r & this1 & -> & O & V1).
  destruct r as [[] | e |]; try exact O.
  unfold bind at 1.
  destruct (log_run (LogTrying proxy) this1 (tr ++ evs)) as (evs1 & -> & _).
  unfold bind at 1.
  pose proof (testProxy_options env (Some proxy) this1 ((tr ++ evs) ++ evs1) V1) as T.
  destruct (testProxy env (Some proxy) this1 ((tr ++ evs) ++ evs1)) as [[[w | e |] this2] tr2];
    unfold final in *; cbn [fst snd ret] in *; congruence.
Qed.

Lemma two_literals_validated : validated two_literals.
Proof. eexists. split; reflexivity. Qed.

(** C3, the code at the failing input.  With the candidates [10.0.0.1:8080]
    and [10.0.0.2:8080], requests that all fail and [forceRetry] off,
    [getProxy] probes both candidates and then throws, for every random
    source, [new Error] of "Proxy cannot be undefined", the error of a draw
    from an empty array, and not the "All proxies have been tested and
    failed" error of line 307: the test of line 303 sends only a converted
    address that is already in the cache to line 306.  With the single
    candidate [localhost:80] the same run does end in the error of line
    307. *)
Theorem exhausted_literals_throw_proxy_undefined :
  (forall rnd,
     result (getProxy (dead_world rnd) 3 two_literals []) = Exn (Rethrown ProxyUndefined)) /\
  probes (trace (getProxy (dead_world (fun _ => 0%N)) 3 two_literals [])) =
    [js "10.0.0.1:8080"; js "10.0.0.2:8080"] /\
  result (getProxy (dead_world (fun _ => 0%N)) 3 one_name []) = Exn (Rethrown AllTested).
Proof.
  split; [| vm_compute; split; reflexivity].
  intros rnd.
  destruct (getProxy_literal (dead_world rnd) 2 two_literals [] 3 two_literals_validated)
    as (r & this' & evs & E & [(p & _ & b & url & limit & a & _ & _ & W)
                              | [[-> _] | (q & _ & I & T)]] & _);
    try reflexivity; try (simpl; lia).
  - intros c [<- | [<- | []]]; reflexivity.
  - discriminate W.
  - now rewrite E.
  - destruct I as [<- | [<- | []]]; discriminate T.
Qed.

(** ** C4: [testProxy] and network failure *)

Lemma well_formed_converts env (proxy : str) this tr :
  direct_form proxy \/ auth_form proxy ->
  resolves env (length tr) proxy ->
  falsy (Some proxy) = false /\
  exists normalized evs,
    convertProxy env (Some proxy) this tr = (Val normalized, this, tr ++ evs) /\
    probes evs = [].
Proof.
  intros W R.
  assert (N : proxy <> []) by (destruct W; [now apply direct_form_nonempty | now apply auth_form_nonempty]).
  split; [now apply falsy_nonempty |].
  destruct (convertProxy_cases env (Some proxy) this tr) as
    [(e & E) | [(p & _ & _ & E) | [(p & q & a & _ & _ & _ & E) | (p & [= <-] & NL & D & _)]]].
  - exfalso. destruct W as [D | A].
    + destruct D as (host & port & -> & H1 & H2).
      rewrite (convertProxy_direct _ _ _ _ _ H1 H2) in E. unfold resolved in E.
      unfold resolves in R.
      rewrite (host_of_direct _ _ H1 H2) in R.
      unfold needs_lookup in R.
      rewrite (proxyType_direct (host ++ js ":" ++ port)) in R by (exists host, port; auto).
      rewrite (host_of_direct _ _ H1 H2) in R.
      destruct (test hasNumber host); [discriminate |].
      destruct (dns_lookup env (length tr) host); [discriminate |].
      now apply R.
    + destruct A as (user & pass & host & port & -> & H1 & H2 & H3 & H4).
      rewrite (convertProxy_auth _ _ _ _ _ _ _ H1 H2 H3 H4) in E. unfold resolved in E.
      unfold resolves in R. rewrite (host_of_auth _ _ _ _ H1 H2 H3 H4) in R.
      unfold needs_lookup in R.
      rewrite (proxyType_auth (user ++ js ":" ++ pass ++ js "@" ++ host ++ js ":" ++ port)) in R
        by (exists user, pass, host, port; auto).
      rewrite (host_of_auth _ _ _ _ H1 H2 H3 H4) in R.
      destruct (test hasNumber host); [discriminate |].
      destruct (dns_lookup env (length tr) host); [discriminate |].
      now apply R.
  - exists p, []. rewrite app_nil_r. auto.
  - eexists _, _. split; [exact E | reflexivity].
  - exfalso. now apply (R NL).
Qed.

(** C4.  On an instance whose options validate, [testProxy] of a well-formed
    candidate whose host resolves returns a boolean whatever the request
    does: [true] when the client answers within [maxTimeout], [false] when
    it rejects, when the outer timer fires and when the answer is late.
    [testProxy(undefined)] throws. *)
Theorem testProxy_returns_a_boolean env (proxy : str) this tr :
  validated this ->
  direct_form proxy \/ auth_form proxy ->
  resolves env (length tr) proxy ->
  (exists normalized tr1 evs,
     convertProxy env (Some proxy) this tr = (Val normalized, this, tr1) /\
     testProxy env (Some proxy) this tr =
       (Val (in_time (http_get env (length tr1) (opt pingUrl this) (Some normalized)
                        (opt maxTimeout this)) (opt maxTimeout this)),
        this,
        tr1 ++ EvRequest (opt pingUrl this) (Some normalized) (opt maxTimeout this) :: evs)) /\
  in_time Rejected (opt maxTimeout this) = false /\
  in_time TimerFired (opt maxTimeout this) = false /\
  (forall elapsed limit,
     opt maxTimeout this = JNum limit -> (limit < elapsed)%Z ->
     in_time (Responded elapsed) (opt maxTimeout this) = false) /\
  testProxy env None this tr = (Exn ProxyUndefined, this, tr).
Proof.
  intros V W R.
  destruct (well_formed_converts env proxy this tr W R) as (F & q & evs & C & _).
  repeat split.
  2:{ intros elapsed limit -> L. simpl. apply negb_false_iff. now apply Z.ltb_lt. }
  - rewrite (testProxy_validated env _ _ _ V F). unfold bind. rewrite C.
    destruct (probe_run env q this (tr ++ evs)) as (evs' & -> & _).
    eauto.
  - unfold testProxy, bind. now rewrite (validateOptions_validated _ _ V).
Qed.

Lemma testProxy_returns_false_for_a_dead_proxy :
  (exists normalized tr1 evs,
     convertProxy (dead_world (fun _ => 0%N)) (Some (js "localhost:80")) two_names []
       = (Val normalized, two_names, tr1) /\
     testProxy (dead_world (fun _ => 0%N)) (Some (js "localhost:80")) two_names [] =
       (Val (in_time (http_get (dead_world (fun _ => 0%N)) (length tr1) (opt pingUrl two_names)
                        (Some normalized) (opt maxTimeout two_names)) (opt maxTimeout two_names)),
        two_names,
        tr1 ++ EvRequest (opt pingUrl two_names) (Some normalized) (opt maxTimeout two_names) :: evs)) /\
  in_time Rejected (opt maxTimeout two_names) = false /\
  in_time TimerFired (opt maxTimeout two_names) = false /\
  (forall elapsed limit,
     opt maxTimeout two_names = JNum limit -> (limit < elapsed)%Z ->
     in_time (Responded elapsed) (opt maxTimeout two_names) = false) /\
  testProxy (dead_world (fun _ => 0%N)) None two_names [] = (Exn ProxyUndefined, two_names, []).
Proof.
  apply (testProxy_returns_a_boolean (dead_world (fun _ => 0%N)) (js "localhost:80") two_names []).
  - eexists. split; reflexivity.
  - left. exists (js "localhost"), (js "80").
    repeat split; solve [reflexivity | discriminate].
  - intros _. discriminate.
Defined.

(** ** C5: the cache is marked before the probe *)

(** C5.  Let [select] (lines 299-302) have drawn a candidate and converted it
    to [proxy].  No request has been sent yet.  If [proxy] is in the cache
    and the cache is as long as the list, the cycle throws the "all tested"
    error and sends none.  Otherwise the rest of the cycle, the probe
    included, runs in a state whose cache holds [proxy]: [proxy] was
    appended when it was absent. *)
Theorem cache_is_marked_before_the_probe env this tr proxy this1 tr1 :
  select env this tr = (Val proxy, this1, tr1) ->
  this1 = this /\
  probes tr1 = probes tr /\
  (includes (cache this) proxy = true ->
   length (cache this) = length (proxyList this) ->
   cycle env this tr = (Exn AllTested, this, tr1)) /\
  (~ (includes (cache this) proxy = true /\
      length (cache this) = length (proxyList this)) ->
   exists this2,
     mark proxy this tr1 = (Val tt, this2, tr1) /\
     In proxy (cache this2) /\
     (includes (cache this) proxy = false -> cache this2 = cache this ++ [proxy]) /\
     cycle env this tr =
       (log (LogTrying proxy) ;;
        workingProxy <- testProxy env (Some proxy) ;;
        ret (if workingProxy then Some proxy else None)) this2 tr1).
Proof.
  intros S. pose proof (cycle_after_select env this tr) as C. rewrite S in C.
  destruct (select_frame env this tr) as (r & evs & S' & P).
  rewrite S in S'. injection S' as <- -> ->.
  split; [reflexivity |]. split; [now rewrite probes_app, P, app_nil_r |].
  unfold bind at 1 in C. unfold mark in C. split.
  - intros I L. rewrite I in C. cbn [negb] in C.
    apply Nat.eqb_eq in L. now rewrite L in C.
  - intros N. unfold mark. destruct (includes (cache this) proxy) eqn:I; cbn [negb] in *.
    + destruct (length (cache this) =? length (proxyList this)) eqn:L.
      * apply Nat.eqb_eq in L. tauto.
      * exists this. repeat split; auto; [now apply includes_In | discriminate].
    + eexists. repeat split; auto. cbn [set_cache cache].
      apply in_app_iff. right. now left.
Qed.

Lemma cache_is_marked_on_two_literals :
  two_literals = two_literals /\
  probes [EvRandom 0%N] = probes [] /\
  (includes (cache two_literals) (js "10.0.0.1:8080") = true ->
   length (cache two_literals) = length (proxyList two_literals) ->
   cycle live_world two_literals [] = (Exn AllTested, two_literals, [EvRandom 0%N])) /\
  (~ (includes (cache two_literals) (js "10.0.0.1:8080") = true /\
      length (cache two_literals) = length (proxyList two_literals)) ->
   exists this2,
     mark (js "10.0.0.1:8080") two_literals [EvRandom 0%N] = (Val tt, this2, [EvRandom 0%N]) /\
     In (js "10.0.0.1:8080") (cache this2) /\
     (includes (cache two_literals) (js "10.0.0.1:8080") = false ->
      cache this2 = cache two_literals ++ [js "10.0.0.1:8080"]) /\
     cycle live_world two_literals [] =
       (log (LogTrying (js "10.0.0.1:8080")) ;;
        workingProxy <- testProxy live_world (Some (js "10.0.0.1:8080")) ;;
        ret (if workingProxy then Some (js "10.0.0.1:8080") else None)) this2 [EvRandom 0%N]).
Proof.
  apply (cache_is_marked_before_the_probe live_world two_literals []
           (js "10.0.0.1:8080") two_literals [EvRandom 0%N]).
  reflexivity.
Defined.

(** ** C6: conversion of a dotted-quad candidate *)

(** C6.  A candidate [host:port] whose host is a dotted quad and whose port
    is made of digits converts to itself, without a lookup; so converting
    the result again gives the same result. *)
Theorem convertProxy_idempotent_on_dotted_quads env (host port : str) this tr :
  ipv4_literal host -> run digit port ->
  convertProxy env (Some (host ++ js ":" ++ port)) this tr =
    (Val (host ++ js ":" ++ port), this, tr) /\
  (normalized <- convertProxy env (Some (host ++ js ":" ++ port)) ;;
   convertProxy env (Some normalized)) this tr =
  convertProxy env (Some (host ++ js ":" ++ port)) this tr.
Proof.
  intros H P.
  assert (E : forall this tr,
             convertProxy env (Some (host ++ js ":" ++ port)) this tr =
             (Val (host ++ js ":" ++ port), this, tr)).
  { intros this' tr'. rewrite (convertProxy_direct env _ _ _ _ (ipv4_host_units _ H) P).
    unfold resolved. now rewrite (hasNumber_ipv4 _ H). }
  split; [apply E |]. unfold bind. now rewrite !E.
Qed.

Lemma convertProxy_idempotent_on_10_0_0_1 :
  convertProxy live_world (Some (js "10.0.0.1" ++ js ":" ++ js "8080")) two_literals [] =
    (Val (js "10.0.0.1" ++ js ":" ++ js "8080"), two_literals, []) /\
  (normalized <- convertProxy live_world (Some (js "10.0.0.1" ++ js ":" ++ js "8080")) ;;
   convertProxy live_world (Some normalized)) two_literals [] =
  convertProxy live_world (Some (js "10.0.0.1" ++ js ":" ++ js "8080")) two_literals [].
Proof.
  apply (convertProxy_idempotent_on_dotted_quads live_world (js "10.0.0.1") (js "8080")
           two_literals []).
  - exists 10, 0, 0, 1. repeat split; solve [lia | reflexivity].
  - split; [discriminate | reflexivity].
Defined.

(** ** C7: malformed candidates *)

(** C7, counterexample.  The empty string has neither form, yet [proxyType]
    throws "Proxy cannot be undefined" instead of returning ["invalid"], and
    so does [convertProxy]: line 130 and line 152 test [!proxy], which holds
    of the empty string. *)
Lemma empty_string_is_not_classified :
  ~ direct_form [] /\ ~ auth_form [] /\
  proxyType (Some []) = Exn ProxyUndefined /\
  convertProxy live_world (Some []) two_literals [] = (Exn ProxyUndefined, two_literals, []).
Proof.
  repeat split.
  - intros H. now apply (direct_form_nonempty _ H).
  - intros H. now apply (auth_form_nonempty _ H).
Qed.

(** C7, amended.  A non-empty string that has neither the direct form nor the
    auth form is classified ["invalid"], and [convertProxy] throws the
    invalid-format error for it, without a lookup. *)
Theorem malformed_candidates_are_invalid env (proxy : str) this tr :
  proxy <> [] -> ~ direct_form proxy -> ~ auth_form proxy ->
  proxyType (Some proxy) = Val Invalid /\
  convertProxy env (Some proxy) this tr = (Exn (InvalidFormat proxy), this, tr).
Proof.
  intros N D A. split; [| now apply convertProxy_invalid].
  unfold proxyType. rewrite (falsy_nonempty _ N). simpl to_string.
  destruct (test directPattern proxy) eqn:TD;
    [apply directPattern_spec in TD; contradiction |].
  destruct (test authPattern proxy) eqn:TA;
    [apply authPattern_spec in TA; contradiction |].
  reflexivity.
Qed.

Lemma not_a_proxy_is_invalid :
  proxyType (Some (js "not-a-proxy")) = Val Invalid /\
  convertProxy live_world (Some (js "not-a-proxy")) two_literals [] =
    (Exn (InvalidFormat (js "not-a-proxy")), two_literals, []).
Proof.
  apply (malformed_candidates_are_invalid live_world (js "not-a-proxy") two_literals []).
  - discriminate.
  - intros H. apply directPattern_spec in H. discriminate.
  - intros H. apply authPattern_spec in H. discriminate.
Defined.

(** ** C8: [addProxies] *)

(** C8.  On an instance whose options validate, [addProxies] returns [false]
    and leaves the list as it was when the argument is missing, not an array
    or an empty array; given a non-empty array it returns [true] and the
    list is the old list followed by the array.  The cache is untouched. *)
Theorem addProxies_appends_or_refuses proxies this tr :
  result (validateOptions this tr) = Val true ->
  cache (final (addProxies proxies this tr)) = cache this /\
  (refused proxies ->
   result (addProxies proxies this tr) = Val false /\
   proxyList (final (addProxies proxies this tr)) = proxyList this) /\
  (forall l, proxies = JArray l -> l <> [] ->
   result (addProxies proxies this tr) = Val true /\
   proxyList (final (addProxies proxies this tr)) = proxyList this ++ l).
Proof.
  intros V. destruct (validateOptions_run this tr) as (r & this0 & E & El & Ec & _).
  rewrite E in V. unfold result in V. cbn [fst] in V. subst r.
  unfold addProxies, bind. rewrite E. repeat split.
  - destruct proxies as [| | | | | [| p ps] |]; unfold final; cbn [fst snd ret]; auto.
  - destruct proxies as [| | | | | [| p ps] |]; try reflexivity. contradiction.
  - destruct proxies as [| | | | | [| p ps] |]; try reflexivity; try contradiction;
      unfold final; cbn [fst snd ret]; auto.
  - destruct l as [| p ps]; [contradiction |]. subst proxies. reflexivity.
  - destruct l as [| p ps]; [contradiction |]. subst proxies.
    unfold final. cbn [fst snd set_proxyList proxyList]. now rewrite El.
Qed.

Lemma addProxies_on_two_literals :
  cache (final (addProxies JUndefined two_literals [])) = cache two_literals /\
  (refused JUndefined ->
   result (addProxies JUndefined two_literals []) = Val false /\
   proxyList (final (addProxies JUndefined two_literals [])) = proxyList two_literals) /\
  (forall l, JUndefined = JArray l -> l <> [] ->
   result (addProxies JUndefined two_literals []) = Val true /\
   proxyList (final (addProxies JUndefined two_literals [])) = proxyList two_literals ++ l).
Proof.
  apply (addProxies_appends_or_refuses JUndefined two_literals []).
  reflexivity.
Defined.

(** ** C9: option validation *)

Lemma typeof_undefined v : typeof v = TUndefined <-> v = JUndefined.
Proof. destruct v; simpl; split; congruence. Qed.

Lemma jstype_eqb_eq a b : jstype_eqb a b = true <-> a = b.
Proof. destruct a, b; simpl; split; congruence. Qed.

Lemma validateOptions_fields this tr f :
  opt (get f) (final (validateOptions this tr)) =
  or_default (opt (get f) this) (documented_default f).
Proof.
  unfold validateOptions.
  match goal with |- context [if ?c then _ else _] => destruct c end;
    unfold final, opt; cbn [fst snd set_options options];
    destruct (options this); destruct f; reflexivity.
Qed.

(** A field with default [d] of type [T] fails the type test after defaulting
    iff it was present with another type. *)
Lemma or_default_type v d T :
  typeof d = T -> T <> TUndefined ->
  negb (jstype_eqb (typeof (or_default v d)) T) =
  negb (is_undefined v) && negb (jstype_eqb (typeof v) T).
Proof.
  intros <- N. unfold or_default, is_undefined.
  destruct v; simpl; try reflexivity.
  - destruct (typeof d); simpl; congruence.
Qed.

Lemma validateOptions_throws_iff this tr :
  result (validateOptions this tr) = Exn InvalidOptions <->
  exists f, opt (get f) this <> JUndefined /\
            typeof (opt (get f) this) <> documented_type f.
Proof.
  assert (B : forall f,
             negb (jstype_eqb (typeof (or_default (opt (get f) this) (documented_default f)))
                     (documented_type f)) = true <->
             opt (get f) this <> JUndefined /\
             typeof (opt (get f) this) <> documented_type f).
  { intros f. rewrite or_default_type by (destruct f; (reflexivity || discriminate)).
    rewrite andb_true_iff, !negb_true_iff. unfold is_undefined.
    rewrite <- typeof_undefined.
    split; intros [H1 H2]; split.
    - intros H. apply jstype_eqb_eq in H. congruence.
    - intros H. apply jstype_eqb_eq in H. congruence.
    - destruct (jstype_eqb (typeof (opt (get f) this)) TUndefined) eqn:E; [| reflexivity].
      apply jstype_eqb_eq in E. contradiction.
    - destruct (jstype_eqb (typeof (opt (get f) this)) (documented_type f)) eqn:E; [| reflexivity].
      apply jstype_eqb_eq in E. contradiction. }
  pose proof (validateOptions_fields this tr) as F.
  destruct (validateOptions_cases this tr) as [[R (o & O & W)] | R].
  - rewrite R. split; [discriminate |]. intros (f & H). exfalso.
    apply B in H. rewrite <- F in H. unfold opt in H. rewrite O in H.
    unfold well_typed in W. rewrite forallb_forall in W.
    rewrite W in H; [discriminate | destruct f; simpl; tauto].
  - split; [intros _ | auto].
    revert R. unfold validateOptions.
    match goal with |- context [if ?c then _ else _] => destruct c eqn:C end;
      [intros _ | discriminate].
    rewrite !orb_true_iff in C.
    cbn [verbose verboseIdentifier maxTimeout pingUrl forceRetry] in C.
    assert (G : forall f, get f match options this with
                                | Some o => o
                                | None => mkOptions (JBool false) (JStr (js "[proxyChooser]"))
                                            (JNum 1000) JUndefined JUndefined
                                end = opt (get f) this \/
                          (options this = None /\ (f = Verbose \/ f = VerboseIdentifier \/ f = MaxTimeout))).
    { intros f. unfold opt. destruct (options this); [now left |].
      destruct f; simpl; auto. }
    destruct C as [[[[C | C] | C] | C] | C].
    + exists MaxTimeout. apply B. destruct (G MaxTimeout) as [<- | [N _]]; [exact C |].
      rewrite N in C. discriminate.
    + exists Verbose. apply B. destruct (G Verbose) as [<- | [N _]]; [exact C |].
      rewrite N in C. discriminate.
    + exists VerboseIdentifier. apply B.
      destruct (G VerboseIdentifier) as [<- | [N _]]; [exact C |].
      rewrite N in C. discriminate.
    + exists PingUrl. apply B. destruct (G PingUrl) as [<- | [_ [H | [H | H]]]]; [exact C | discriminate ..].
    + exists ForceRetry. apply B. destruct (G ForceRetry) as [<- | [_ [H | [H | H]]]]; [exact C | discriminate ..].
Qed.

Lemma validation_is_eager env this tr :
  result (validateOptions this tr) = Exn InvalidOptions ->
  forall proxies proxy fuel,
    addProxies proxies this tr = (Exn InvalidOptions, final (validateOptions this tr), tr) /\
    getPing env this tr = (Exn InvalidOptions, final (validateOptions this tr), tr) /\
    testProxy env proxy this tr = (Exn InvalidOptions, final (validateOptions this tr), tr) /\
    getProxy env (S fuel) this tr = (Exn InvalidOptions, final (validateOptions this tr), tr).
Proof.
  intros R proxies proxy fuel.
  destruct (validateOptions_run this tr) as (r & this0 & E & _).
  rewrite E in R. unfold result in R. cbn [fst] in R. subst r.
  rewrite getProxy_step. unfold addProxies, getPing, testProxy, bind. rewrite E.
  repeat split.
Qed.

(** C9.  [validateOptions] gives each field that is missing or [undefined]
    its documented default and keeps each field that is present; it throws
    "Invalid options" exactly when a present field has another type than the
    documented one, and returns [true] otherwise.  It sends nothing; and when
    it throws, [addProxies], [getPing], [testProxy] and [getProxy] throw the
    same error before any event. *)
Theorem validateOptions_defaults_and_rejects env this tr :
  (forall f, opt (get f) this = JUndefined ->
             opt (get f) (final (validateOptions this tr)) = documented_default f) /\
  (forall f, opt (get f) this <> JUndefined ->
             opt (get f) (final (validateOptions this tr)) = opt (get f) this) /\
  (result (validateOptions this tr) = Exn InvalidOptions <->
   exists f, opt (get f) this <> JUndefined /\
             typeof (opt (get f) this) <> documented_type f) /\
  (result (validateOptions this tr) = Val true \/
   result (validateOptions this tr) = Exn InvalidOptions) /\
  trace (validateOptions this tr) = tr /\
  (result (validateOptions this tr) = Exn InvalidOptions ->
   forall proxies proxy fuel,
     addProxies proxies this tr = (Exn InvalidOptions, final (validateOptions this tr), tr) /\
     getPing env this tr = (Exn InvalidOptions, final (validateOptions this tr), tr) /\
     testProxy env proxy this tr = (Exn InvalidOptions, final (validateOptions this tr), tr) /\
     getProxy env (S fuel) this tr = (Exn InvalidOptions, final (validateOptions this tr), tr)).
Proof.
  refine (conj _ (conj _ (conj _ (conj _ (conj _ _))))).
  - intros f U. rewrite validateOptions_fields, U. reflexivity.
  - intros f P. rewrite validateOptions_fields. unfold or_default, is_undefined.
    destruct (opt (get f) this); try reflexivity. contradiction.
  - apply validateOptions_throws_iff.
  - destruct (validateOptions_cases this tr) as [[R _] | R]; auto.
  - apply validateOptions_frame.
  - apply validation_is_eager.
Qed.

(** ** C10: what each method leaves alone *)

(** C10.  [testProxy] leaves the list and the cache as they were, whether it
    returns or throws; so do [validateOptions], [convertProxy] and
    [getPing].  [resetCache] empties the cache and keeps the list;
    [resetList] and [addProxies] keep the cache; [getProxy] keeps the
    list. *)
Theorem testProxy_leaves_list_and_cache env :
  (forall proxy, keeps proxyList (testProxy env proxy) /\ keeps cache (testProxy env proxy)) /\
  (keeps proxyList validateOptions /\ keeps cache validateOptions) /\
  (forall proxy, keeps proxyList (convertProxy env proxy) /\
                 keeps cache (convertProxy env proxy)) /\
  (keeps proxyList (getPing env) /\ keeps cache (getPing env)) /\
  (keeps proxyList resetCache /\
   forall this tr, cache (final (resetCache this tr)) = []) /\
  keeps cache resetList /\
  (forall proxies, keeps cache (addProxies proxies)) /\
  (forall fuel, keeps proxyList (getProxy env fuel)).
Proof.
  repeat split.
  - apply keeps_testProxy_list.
  - apply keeps_testProxy_cache.
  - apply keeps_validateOptions_list.
  - apply keeps_validateOptions_cache.
  - apply keeps_convertProxy.
  - apply keeps_convertProxy.
  - apply keeps_getPing_list.
  - apply keeps_getPing_cache.
  - intros this tr. unfold resetList.
    now destruct (negb (length (proxyList this) =? 0)).
  - intros proxies. unfold addProxies.
    apply keeps_bind; [apply keeps_validateOptions_cache | intros _].
    destruct proxies as [| | | | | [| p ps] |]; try apply keeps_ret.
    intros this tr. reflexivity.
  - intros fuel. apply keeps_getProxy_list.
Qed.

(** * Further properties of the methods *)


Lemma or_default_twice v d : or_default (or_default v d) d = or_default v d.
Proof. unfold or_default. destruct (is_undefined v) eqn:E; [| now rewrite E]. now destruct (is_undefined d). Qed.

(** X1.  Validating twice is validating once: the second [validateOptions]
    returns or throws as the first did and leaves the options as the first
    left them. *)
Theorem validateOptions_is_idempotent this tr :
  validateOptions (final (validateOptions this tr)) tr = validateOptions this tr.
Proof.
  unfold validateOptions at 2.
  match goal with |- context [if ?c then _ else _] => destruct c eqn:C end;
    unfold final; cbn [fst snd]; unfold validateOptions;
    cbn [options set_options verbose verboseIdentifier maxTimeout pingUrl forceRetry
         proxyList cache];
    cbn [verbose verboseIdentifier maxTimeout pingUrl forceRetry] in C;
    rewrite !or_default_twice, C; reflexivity.
Qed.

(** X2.  [resetList] empties a non-empty list and returns [true]; on an empty
    list it returns [false] and changes nothing.  It never touches the cache
    or the options, and a second [resetList] right after always returns
    [false]. *)
Theorem resetList_clears_once this tr tr' :
  (proxyList this <> [] -> resetList this tr = (Val true, set_proxyList this [], tr)) /\
  (proxyList this = [] -> resetList this tr = (Val false, this, tr)) /\
  proxyList (final (resetList this tr)) = [] /\
  cache (final (resetList this tr)) = cache this /\
  options (final (resetList this tr)) = options this /\
  resetList (final (resetList this tr)) tr' = (Val false, final (resetList this tr), tr').
Proof.
  destruct this as [[| c l] o k]; unfold resetList, final; cbn;
    repeat split; try reflexivity; intros H; congruence.
Qed.

(** X3.  Two [addProxies] in a row extend the list by the first array and
    then the second, in order and with duplicates kept; refused calls in
    between ([[]], [undefined]) change nothing. *)
Theorem addProxies_composes this tr p1 l1 p2 l2 :
  validated this ->
  (addProxies (JArray (p1 :: l1)) ;; addProxies (JArray (p2 :: l2))) this tr =
    (Val true, set_proxyList this (proxyList this ++ (p1 :: l1) ++ (p2 :: l2)), tr) /\
  (addProxies (JArray (p1 :: l1)) ;; addProxies (JArray []) ;;
   addProxies JUndefined) this tr =
    (Val false, set_proxyList this (proxyList this ++ p1 :: l1), tr).
Proof.
  intros V.
  assert (V1 : validated (set_proxyList this (proxyList this ++ p1 :: l1))).
  { destruct V as (o & E & W). exists o. auto. }
  unfold addProxies, bind, ret.
  rewrite (validateOptions_validated _ _ V), !(validateOptions_validated _ _ V1).
  split; [| reflexivity].
  unfold set_proxyList. cbn [proxyList options cache]. now rewrite <- app_assoc.
Qed.

Lemma addProxies_composes_on_two_literals :
  (addProxies (JArray [js "10.0.0.3:80"]) ;; addProxies (JArray [js "10.0.0.4:80"])) two_literals [] =
    (Val true, set_proxyList two_literals
                 (proxyList two_literals ++ [js "10.0.0.3:80"] ++ [js "10.0.0.4:80"]), []) /\
  (addProxies (JArray [js "10.0.0.3:80"]) ;; addProxies (JArray []) ;;
   addProxies JUndefined) two_literals [] =
    (Val false, set_proxyList two_literals (proxyList two_literals ++ [js "10.0.0.3:80"]), []).
Proof.
  apply (addProxies_composes two_literals [] (js "10.0.0.3:80") [] (js "10.0.0.4:80") []).
  eexists. split; reflexivity.
Defined.

(** X4.  [proxyType] returns ["direct"] exactly on the strings
    [host:port], ["auth"] exactly on the strings [user:pass@host:port],
    ["invalid"] exactly on the other non-empty strings; it throws exactly on
    the empty string and on [undefined].  No string has both forms. *)
Theorem proxyType_classifies (proxy : str) :
  (proxyType (Some proxy) = Val Direct <-> direct_form proxy) /\
  (proxyType (Some proxy) = Val Auth <-> auth_form proxy) /\
  (proxyType (Some proxy) = Val Invalid <->
   proxy <> [] /\ ~ direct_form proxy /\ ~ auth_form proxy) /\
  (proxyType (Some proxy) = Exn ProxyUndefined <-> proxy = []) /\
  ~ (direct_form proxy /\ auth_form proxy) /\
  proxyType None = Exn ProxyUndefined.
Proof.
  assert (X : ~ (direct_form proxy /\ auth_form proxy)).
  { intros [D A]. apply (direct_form_no_at _ D). now apply auth_form_has_at. }
  refine (conj _ (conj _ (conj _ (conj _ (conj X eq_refl))))).
  - split; [apply (proxyType_cases proxy Direct) | apply proxyType_direct].
  - split; [apply (proxyType_cases proxy Auth) | apply proxyType_auth].
  - split; [apply (proxyType_cases proxy Invalid) |].
    intros (N & D & A). unfold proxyType. rewrite (falsy_nonempty _ N). simpl to_string.
    destruct (test directPattern proxy) eqn:TD;
      [apply directPattern_spec in TD; contradiction |].
    destruct (test authPattern proxy) eqn:TA;
      [apply authPattern_spec in TA; contradiction |].
    reflexivity.
  - split.
    + destruct proxy; [reflexivity |]. unfold proxyType. simpl.
      destruct (test directPattern (a :: proxy)), (test authPattern (a :: proxy)); discriminate.
    + intros ->. reflexivity.
Qed.

(** X5.  On validated options [getPing] sends exactly one request, to
    [pingUrl], without a proxy and with a timeout of 300000 ms.  It returns
    the elapsed time of an answer, however long ([maxTimeout] plays no
    part), and throws when there is no answer.  The state is unchanged. *)
Theorem getPing_measures_one_request env this tr :
  validated this ->
  exists before after,
    existsb network_event before = false /\
    existsb network_event after = false /\
    getPing env this tr =
      (match http_get env (length (tr ++ before)) (opt pingUrl this) None (JNum 300000) with
       | Responded elapsed => Val elapsed
       | _ => Exn (PingFailed (opt pingUrl this))
       end,
       this,
       tr ++ before ++ EvRequest (opt pingUrl this) None (JNum 300000) :: after).
Proof.
  intros V. unfold getPing. unfold bind at 1. rewrite (validateOptions_validated _ _ V).
  unfold bind at 1.
  destruct (log_run (LogGettingPing (opt pingUrl this)) this tr) as (before & -> & _ & B).
  exists before. unfold bind at 1. unfold request.
  change (JNum (30 * 10000)) with (JNum 300000).
  destruct (http_get env (length (tr ++ before)) (opt pingUrl this) None (JNum 300000))
    as [elapsed | |].
  - unfold bind.
    destruct (log_run (LogPing (opt pingUrl this) elapsed) this
                ((tr ++ before) ++ [EvRequest (opt pingUrl this) None (JNum 300000)]))
      as (after & -> & _ & A).
    exists after. repeat split; auto. unfold ret. now rewrite <- !app_assoc.
  - exists []. repeat split; auto. unfold throw. now rewrite <- !app_assoc.
  - exists []. repeat split; auto. unfold throw. now rewrite <- !app_assoc.
Qed.

Lemma getPing_on_a_live_world :
  exists before after,
    existsb network_event before = false /\
    existsb network_event after = false /\
    getPing live_world two_literals [] =
      (match http_get live_world (length ([] ++ before)) (opt pingUrl two_literals) None
               (JNum 300000) with
       | Responded elapsed => Val elapsed
       | _ => Exn (PingFailed (opt pingUrl two_literals))
       end,
       two_literals,
       [] ++ before ++ EvRequest (opt pingUrl two_literals) None (JNum 300000) :: after).
Proof.
  apply (getPing_measures_one_request live_world two_literals []).
  eexists. split; reflexivity.
Defined.

(** X6.  The [try] block of [testProxy] sends exactly one request, through
    the proxy, and always yields a boolean.  The request is aborted exactly
    when the client rejected or the outer timer fired; a late answer is not
    aborted. *)
Theorem probe_aborts_failed_requests env proxy this tr :
  exists evs,
    probe env proxy this tr =
      (Val (in_time (http_get env (length tr) (opt pingUrl this) (Some proxy)
                       (opt maxTimeout this)) (opt maxTimeout this)),
       this,
       tr ++ EvRequest (opt pingUrl this) (Some proxy) (opt maxTimeout this) :: evs) /\
    existsb network_event evs = false /\
    (existsb is_abort evs = true <->
     http_get env (length tr) (opt pingUrl this) (Some proxy) (opt maxTimeout this) = Rejected \/
     http_get env (length tr) (opt pingUrl this) (Some proxy) (opt maxTimeout this) = TimerFired).
Proof.
  unfold probe, request, not_working, emit, in_time, bind, ret.
  destruct (http_get env (length tr) (opt pingUrl this) (Some proxy) (opt maxTimeout this))
    as [elapsed | |].
  - assert (L : forall line, exists evs,
                log line this (tr ++ [EvRequest (opt pingUrl this) (Some proxy) (opt maxTimeout this)])
                = (Val tt, this, tr ++ EvRequest (opt pingUrl this) (Some proxy) (opt maxTimeout this) :: evs)
                /\ existsb network_event evs = false /\ existsb is_abort evs = false).
    { intros line. unfold log. destruct (truthy (opt verbose this)).
      - eexists. rewrite <- app_assoc. split; [reflexivity |]. split; reflexivity.
      - exists []. split; [reflexivity |]. split; reflexivity. }
    destruct (exceeds elapsed (opt maxTimeout this)); cbn [negb].
    + destruct (L (LogNotWorking proxy RequestTimedOut)) as (evs & -> & N & A).
      exists evs. rewrite A. repeat split; auto; intros H; [discriminate | destruct H; discriminate].
    + destruct (L (LogWorking proxy elapsed)) as (evs & -> & N & A).
      exists evs. rewrite A. repeat split; auto; intros H; [discriminate | destruct H; discriminate].
  - unfold log. destruct (truthy (opt verbose this)); eexists; rewrite <- !app_assoc;
      (split; [reflexivity |]); (split; [reflexivity |]); simpl; tauto.
  - unfold log. destruct (truthy (opt verbose this)); eexists; rewrite <- !app_assoc;
      (split; [reflexivity |]); (split; [reflexivity |]); simpl; tauto.
Qed.

Lemma lookup_forms (p : str) :
  needs_lookup p = true ->
  test hasNumber (host_of p) = false /\
  ((exists host port,
      p = host ++ js ":" ++ port /\ run host_unit host /\ run digit port /\ host_of p = host) \/
   (exists user pass host port,
      p = user ++ js ":" ++ pass ++ js "@" ++ host ++ js ":" ++ port /\
      run credential_unit user /\ run credential_unit pass /\
      run auth_host_unit host /\ run digit port /\ host_of p = host)).
Proof.
  intros NL. pose proof NL as NL'. apply needs_lookup_spec in NL' as [W N]. split.
  - rewrite <- hasNumber_spec in N. now destruct (test hasNumber (host_of p)).
  - destruct W as [(host & port & -> & H1 & H2) | (user & pass & host & port & -> & H1 & H2 & H3 & H4)].
    + left. exists host, port. repeat split; try apply H1; try apply H2.
      now apply host_of_direct.
    + right. exists user, pass, host, port.
      repeat split; try apply H1; try apply H2; try apply H3; try apply H4.
      now apply host_of_auth.
Qed.

Lemma convertProxy_unresolved env (p : str) this tr :
  needs_lookup p = true ->
  dns_lookup env (length tr) (host_of p) = None ->
  convertProxy env (Some p) this tr =
    (Exn (ResolveFailed (host_of p)), this, tr ++ [EvDns (host_of p) None]).
Proof.
  intros NL D. destruct (lookup_forms p NL) as [T [F | F]].
  - destruct F as (host & port & -> & H1 & H2 & HO). rewrite HO in *.
    rewrite (convertProxy_direct env _ _ _ _ H1 H2). unfold resolved. now rewrite T, D.
  - destruct F as (user & pass & host & port & -> & H1 & H2 & H3 & H4 & HO). rewrite HO in *.
    rewrite (convertProxy_auth env _ _ _ _ _ _ H1 H2 H3 H4). unfold resolved. now rewrite T, D.
Qed.

(** X7.  [testProxy] does not return [false] for a candidate it cannot
    convert: it throws "Proxy cannot be undefined" for the empty string, the
    invalid-format error for a malformed candidate, and the resolution error
    naming the host when the lookup fails; no request is sent. *)
Theorem testProxy_throws_for_unusable_candidates env (proxy : str) this tr :
  validated this ->
  (proxy = [] -> testProxy env (Some proxy) this tr = (Exn ProxyUndefined, this, tr)) /\
  (proxy <> [] -> ~ direct_form proxy -> ~ auth_form proxy ->
   testProxy env (Some proxy) this tr = (Exn (InvalidFormat proxy), this, tr)) /\
  (needs_lookup proxy = true -> dns_lookup env (length tr) (host_of proxy) = None ->
   testProxy env (Some proxy) this tr =
     (Exn (ResolveFailed (host_of proxy)), this, tr ++ [EvDns (host_of proxy) None])).
Proof.
  intros V. repeat split.
  - intros ->. unfold testProxy, bind. now rewrite (validateOptions_validated _ _ V).
  - intros N D A. rewrite (testProxy_validated env _ _ _ V (falsy_nonempty _ N)).
    unfold bind. now rewrite (convertProxy_invalid env _ _ _ N D A).
  - intros NL D.
    assert (N : proxy <> []).
    { apply needs_lookup_spec in NL as [[W | W] _];
        [now apply direct_form_nonempty | now apply auth_form_nonempty]. }
    rewrite (testProxy_validated env _ _ _ V (falsy_nonempty _ N)).
    unfold bind. now rewrite (convertProxy_unresolved env _ _ _ NL D).
Qed.

Lemma testProxy_throws_on_two_literals :
  (js "bad@@format" = [] ->
   testProxy live_world (Some (js "bad@@format")) two_literals [] =
     (Exn ProxyUndefined, two_literals, [])) /\
  (js "bad@@format" <> [] -> ~ direct_form (js "bad@@format") -> ~ auth_form (js "bad@@format") ->
   testProxy live_world (Some (js "bad@@format")) two_literals [] =
     (Exn (InvalidFormat (js "bad@@format")), two_literals, [])) /\
  (needs_lookup (js "bad@@format") = true ->
   dns_lookup live_world (length (@nil event)) (host_of (js "bad@@format")) = None ->
   testProxy live_world (Some (js "bad@@format")) two_literals [] =
     (Exn (ResolveFailed (host_of (js "bad@@format"))), two_literals,
      [] ++ [EvDns (host_of (js "bad@@format")) None])).
Proof.
  apply (testProxy_throws_for_unusable_candidates live_world (js "bad@@format") two_literals []).
  eexists. split; reflexivity.
Defined.

(** X8.  When the host is not a dotted quad and the resolver answers,
    [convertProxy] makes exactly one lookup and returns the candidate with
    the host replaced by the answer: port and credentials are kept as they
    were. *)
Theorem convertProxy_substitutes_the_host env (host port address : str) this tr :
  ~ ipv4_literal host -> run digit port ->
  dns_lookup env (length tr) host = Some address ->
  (run host_unit host ->
   convertProxy env (Some (host ++ js ":" ++ port)) this tr =
     (Val (address ++ js ":" ++ port), this, tr ++ [EvDns host (Some address)])) /\
  (forall user pass,
     run credential_unit user -> run credential_unit pass -> run auth_host_unit host ->
     convertProxy env (Some (user ++ js ":" ++ pass ++ js "@" ++ host ++ js ":" ++ port)) this tr =
       (Val (user ++ js ":" ++ pass ++ js "@" ++ address ++ js ":" ++ port), this,
        tr ++ [EvDns host (Some address)])).
Proof.
  intros N P D. rewrite <- hasNumber_spec in N.
  assert (T : test hasNumber host = false) by (now destruct (test hasNumber host)).
  split.
  - intros H. rewrite (convertProxy_direct env _ _ _ _ H P). unfold resolved. now rewrite T, D.
  - intros user pass H1 H2 H3. rewrite (convertProxy_auth env _ _ _ _ _ _ H1 H2 H3 P).
    unfold resolved. now rewrite T, D.
Qed.

Lemma convertProxy_substitutes_localhost :
  (run host_unit (js "localhost") ->
   convertProxy live_world (Some (js "localhost" ++ js ":" ++ js "80")) two_literals [] =
     (Val (js "127.0.0.1" ++ js ":" ++ js "80"), two_literals,
      [] ++ [EvDns (js "localhost") (Some (js "127.0.0.1"))])) /\
  (forall user pass,
     run credential_unit user -> run credential_unit pass -> run auth_host_unit (js "localhost") ->
     convertProxy live_world
       (Some (user ++ js ":" ++ pass ++ js "@" ++ js "localhost" ++ js ":" ++ js "80"))
       two_literals [] =
       (Val (user ++ js ":" ++ pass ++ js "@" ++ js "127.0.0.1" ++ js ":" ++ js "80"),
        two_literals, [] ++ [EvDns (js "localhost") (Some (js "127.0.0.1"))])).
Proof.
  apply (convertProxy_substitutes_the_host live_world (js "localhost") (js "80")
           (js "127.0.0.1") two_literals []).
  - intros H. apply hasNumber_spec in H. discriminate.
  - split; [discriminate | reflexivity].
  - reflexivity.
Defined.

Lemma host_unit_is_auth_host_unit_on_decimal n :
  n < 256 -> forallb auth_host_unit (decimal n) = true.
Proof.
  intros H.
  assert (T : forallb (fun n => forallb auth_host_unit (decimal n)) (seq 0 256) = true)
    by (vm_compute; reflexivity).
  rewrite forallb_forall in T. exact (T n (below_256 n H)).
Qed.

Lemma ipv4_auth_host_units host : ipv4_literal host -> run auth_host_unit host.
Proof.
  intros (a & b & c & d & Ha & Hb & Hc & Hd & ->). split.
  - destruct (decimal_cons a) as (ca & sa & ->). discriminate.
  - rewrite !forallb_app, !host_unit_is_auth_host_unit_on_decimal by assumption. reflexivity.
Qed.

Lemma dotted_quad_direct_stable env (host port : str) this tr :
  ipv4_literal host -> run digit port ->
  convertProxy env (Some (host ++ js ":" ++ port)) this tr =
    (Val (host ++ js ":" ++ port), this, tr).
Proof.
  intros H P. rewrite (convertProxy_direct env _ _ _ _ (ipv4_host_units _ H) P).
  unfold resolved. now rewrite (hasNumber_ipv4 _ H).
Qed.

Lemma dotted_quad_auth_stable env (user pass host port : str) this tr :
  run credential_unit user -> run credential_unit pass ->
  ipv4_literal host -> run digit port ->
  convertProxy env (Some (user ++ js ":" ++ pass ++ js "@" ++ host ++ js ":" ++ port)) this tr =
    (Val (user ++ js ":" ++ pass ++ js "@" ++ host ++ js ":" ++ port), this, tr).
Proof.
  intros U W H P.
  rewrite (convertProxy_auth env _ _ _ _ _ _ U W (ipv4_auth_host_units _ H) P).
  unfold resolved. now rewrite (hasNumber_ipv4 _ H).
Qed.

(** X9.  A candidate [user:pass@host:port] whose host is a dotted quad is
    classified ["auth"], needs no lookup and converts to itself. *)
Theorem convertProxy_keeps_credentials_of_dotted_quads env (user pass host port : str) this tr :
  run credential_unit user -> run credential_unit pass ->
  ipv4_literal host -> run digit port ->
  convertProxy env (Some (user ++ js ":" ++ pass ++ js "@" ++ host ++ js ":" ++ port)) this tr =
    (Val (user ++ js ":" ++ pass ++ js "@" ++ host ++ js ":" ++ port), this, tr) /\
  proxyType (Some (user ++ js ":" ++ pass ++ js "@" ++ host ++ js ":" ++ port)) = Val Auth /\
  needs_lookup (user ++ js ":" ++ pass ++ js "@" ++ host ++ js ":" ++ port) = false.
Proof.
  intros U W H P.
  assert (A : auth_form (user ++ js ":" ++ pass ++ js "@" ++ host ++ js ":" ++ port))
    by (exists user, pass, host, port; split; [reflexivity |]; split; [exact U |];
        split; [exact W |]; split; [now apply ipv4_auth_host_units | exact P]).
  split; [now apply dotted_quad_auth_stable |]. split; [now apply proxyType_auth |].
  unfold needs_lookup. rewrite (proxyType_auth _ A).
  rewrite (host_of_auth _ _ _ _ U W (ipv4_auth_host_units _ H) P).
  now rewrite (hasNumber_ipv4 _ H).
Qed.

Lemma convertProxy_keeps_name_pw_at_10_0_0_1 :
  convertProxy live_world
    (Some (js "name" ++ js ":" ++ js "pw" ++ js "@" ++ js "10.0.0.1" ++ js ":" ++ js "3128"))
    two_literals [] =
    (Val (js "name" ++ js ":" ++ js "pw" ++ js "@" ++ js "10.0.0.1" ++ js ":" ++ js "3128"),
     two_literals, []) /\
  proxyType (Some (js "name" ++ js ":" ++ js "pw" ++ js "@" ++ js "10.0.0.1" ++ js ":" ++ js "3128"))
    = Val Auth /\
  needs_lookup (js "name" ++ js ":" ++ js "pw" ++ js "@" ++ js "10.0.0.1" ++ js ":" ++ js "3128")
    = false.
Proof.
  apply (convertProxy_keeps_credentials_of_dotted_quads live_world
           (js "name") (js "pw") (js "10.0.0.1") (js "3128") two_literals []).
  - split; [discriminate | reflexivity].
  - split; [discriminate | reflexivity].
  - exists 10, 0, 0, 1. repeat split; solve [lia | reflexivity].
  - split; [discriminate | reflexivity].
Defined.

(** X10.  Whatever candidate was converted, the result converts to itself
    without a lookup, as long as the resolver answers with dotted quads. *)
Theorem convertProxy_output_is_stable env (p q : str) this tr this1 tr1 :
  convertProxy env (Some p) this tr = (Val q, this1, tr1) ->
  (forall address, dns_lookup env (length tr) (host_of p) = Some address ->
                   ipv4_literal address) ->
  forall this' tr', convertProxy env (Some q) this' tr' = (Val q, this', tr').
Proof.
  intros C R this' tr'.
  destruct (falsy (Some p)) eqn:F.
  { rewrite (convertProxy_undefined env _ this tr F) in C. discriminate. }
  assert (N : p <> []) by (now destruct p).
  destruct (proxyType (Some p)) as [t | e |] eqn:T;
    [| unfold proxyType in T; rewrite F in T; simpl in T;
       destruct (test directPattern p), (test authPattern p); discriminate ..].
  pose proof (proxyType_cases _ _ T) as K. destruct t.
  - destruct K as (host & port & -> & H1 & H2).
    rewrite (host_of_direct _ _ H1 H2) in R.
    rewrite (convertProxy_direct env _ _ _ _ H1 H2) in C. unfold resolved in C.
    destruct (test hasNumber host) eqn:HN.
    + injection C as <- _ _. apply dotted_quad_direct_stable; [now apply hasNumber_spec | exact H2].
    + destruct (dns_lookup env (length tr) host) as [a |]; [| discriminate].
      injection C as <- _ _. apply dotted_quad_direct_stable; [now apply R | exact H2].
  - destruct K as (user & pass & host & port & -> & H1 & H2 & H3 & H4).
    rewrite (host_of_auth _ _ _ _ H1 H2 H3 H4) in R.
    rewrite (convertProxy_auth env _ _ _ _ _ _ H1 H2 H3 H4) in C. unfold resolved in C.
    destruct (test hasNumber host) eqn:HN.
    + injection C as <- _ _.
      apply dotted_quad_auth_stable; auto. now apply hasNumber_spec.
    + destruct (dns_lookup env (length tr) host) as [a |]; [| discriminate].
      injection C as <- _ _. apply dotted_quad_auth_stable; auto.
  - destruct K as (_ & D & A). rewrite (convertProxy_invalid env _ _ _ N D A) in C. discriminate.
Qed.

Lemma convertProxy_output_is_stable_for_localhost :
  convertProxy live_world (Some (js "127.0.0.1:80")) two_names [EvAbort] =
    (Val (js "127.0.0.1:80"), two_names, [EvAbort]).
Proof.
  refine (convertProxy_output_is_stable live_world (js "localhost:80") (js "127.0.0.1:80")
            two_literals [] two_literals [EvDns (js "localhost") (Some (js "127.0.0.1"))]
            _ _ two_names [EvAbort]).
  - reflexivity.
  - intros address [= <-]. exists 127, 0, 0, 1. repeat split; solve [lia | reflexivity].
Defined.


Lemma count_no_occurrence sep (s : str) :
  forallb (differs sep) s = true -> count_occ ascii_dec s sep = 0.
Proof. intros H. apply count_occ_not_In. now apply forallb_differs_In. Qed.

Lemma direct_form_one_colon (q : str) :
  direct_form q -> count_occ ascii_dec q ":"%char = 1.
Proof.
  intros (host & port & -> & [_ F1] & [_ F2]).
  rewrite !count_occ_app.
  rewrite (count_no_occurrence _ _ (forallb_impl _ _ _ host_unit_not_colon F1)).
  rewrite (count_no_occurrence _ _ (forallb_impl _ _ _ digit_not_colon F2)).
  reflexivity.
Qed.

(** X11.  When the resolver answers a [host:port] candidate with an address
    that contains a colon (an IPv6 address), the converted address
    [address:port] is classified ["invalid"]: converting it again, and so
    [testProxy] of it, throws the invalid-format error. *)
Theorem convertProxy_rejects_an_address_with_colons env (host port address : str) this tr :
  run host_unit host -> run digit port -> ~ ipv4_literal host ->
  dns_lookup env (length tr) host = Some address ->
  In ":"%char address -> ~ In "@"%char address ->
  convertProxy env (Some (host ++ js ":" ++ port)) this tr =
    (Val (address ++ js ":" ++ port), this, tr ++ [EvDns host (Some address)]) /\
  proxyType (Some (address ++ js ":" ++ port)) = Val Invalid /\
  (normalized <- convertProxy env (Some (host ++ js ":" ++ port)) ;;
   convertProxy env (Some normalized)) this tr =
    (Exn (InvalidFormat (address ++ js ":" ++ port)), this, tr ++ [EvDns host (Some address)]) /\
  (validated this ->
   (normalized <- convertProxy env (Some (host ++ js ":" ++ port)) ;;
    testProxy env (Some normalized)) this tr =
    (Exn (InvalidFormat (address ++ js ":" ++ port)), this, tr ++ [EvDns host (Some address)])).
Proof.
  intros H P N D C A.
  assert (E : convertProxy env (Some (host ++ js ":" ++ port)) this tr =
              (Val (address ++ js ":" ++ port), this, tr ++ [EvDns host (Some address)])).
  { rewrite <- hasNumber_spec in N.
    rewrite (convertProxy_direct env _ _ _ _ H P). unfold resolved.
    destruct (test hasNumber host); [now contradiction N |]. now rewrite D. }
  assert (Q : address ++ js ":" ++ port <> []) by (destruct address; [contradiction | discriminate]).
  assert (ND : ~ direct_form (address ++ js ":" ++ port)).
  { intros F. apply direct_form_one_colon in F. rewrite !count_occ_app in F.
    apply (count_occ_In ascii_dec) in C. simpl in F. lia. }
  assert (NA : ~ auth_form (address ++ js ":" ++ port)).
  { intros F. apply auth_form_has_at in F. rewrite !in_app_iff in F.
    destruct P as [_ P]. destruct F as [F | [F | F]]; [now apply A | |].
    - destruct F as [F | []]. discriminate.
    - apply (forallb_differs_In _ _ (forallb_impl _ _ _ digit_not_at P)). exact F. }
  split; [exact E |]. split; [| split].
  - unfold proxyType. rewrite (falsy_nonempty _ Q). simpl to_string.
    destruct (test directPattern _) eqn:TD; [apply directPattern_spec in TD; contradiction |].
    destruct (test authPattern _) eqn:TA; [apply authPattern_spec in TA; contradiction |].
    reflexivity.
  - unfold bind. rewrite E. now apply convertProxy_invalid.
  - intros V. unfold bind at 1. rewrite E.
    rewrite (testProxy_validated env _ _ _ V (falsy_nonempty _ Q)).
    unfold bind. now rewrite (convertProxy_invalid env _ _ _ Q ND NA).
Qed.

Lemma convertProxy_rejects_the_loopback_of_ipv6 :
  convertProxy ipv6_world (Some (js "localhost" ++ js ":" ++ js "80")) two_literals [] =
    (Val (js "::1" ++ js ":" ++ js "80"), two_literals,
     [] ++ [EvDns (js "localhost") (Some (js "::1"))]) /\
  proxyType (Some (js "::1" ++ js ":" ++ js "80")) = Val Invalid /\
  (normalized <- convertProxy ipv6_world (Some (js "localhost" ++ js ":" ++ js "80")) ;;
   convertProxy ipv6_world (Some normalized)) two_literals [] =
    (Exn (InvalidFormat (js "::1" ++ js ":" ++ js "80")), two_literals,
     [] ++ [EvDns (js "localhost") (Some (js "::1"))]) /\
  (validated two_literals ->
   (normalized <- convertProxy ipv6_world (Some (js "localhost" ++ js ":" ++ js "80")) ;;
    testProxy ipv6_world (Some normalized)) two_literals [] =
    (Exn (InvalidFormat (js "::1" ++ js ":" ++ js "80")), two_literals,
     [] ++ [EvDns (js "localhost") (Some (js "::1"))])).
Proof.
  apply (convertProxy_rejects_an_address_with_colons ipv6_world
           (js "localhost") (js "80") (js "::1") two_literals []).
  - split; [discriminate | reflexivity].
  - split; [discriminate | reflexivity].
  - intros H. apply hasNumber_spec in H. discriminate.
  - reflexivity.
  - simpl. auto.
  - simpl. intros [H | [H | [H | []]]]; discriminate.
Defined.

(** ** [getProxy]: exhaustion, retries, the cache *)

(** X12.  When every candidate's text is in the cache, or the list is empty,
    the [try] block of [getProxy] throws "Proxy cannot be undefined" after
    one random draw, without a lookup or a request; with [forceRetry] off
    [getProxy] throws it wrapped in [new Error]. *)
Theorem getProxy_throws_when_nothing_remains env fuel this tr :
  validated this -> remaining this = [] ->
  exists k,
    cycle env this tr = (Exn ProxyUndefined, this, tr ++ [EvRandom k]) /\
    (truthy (opt forceRetry this) = false ->
     getProxy env (S fuel) this tr = (Exn (Rethrown ProxyUndefined), this, tr ++ [EvRandom k])).
Proof.
  intros V R. exists (math_random env (length tr) mod 2 ^ 53)%N.
  assert (C : cycle env this tr =
              (Exn ProxyUndefined, this, tr ++ [EvRandom (math_random env (length tr) mod 2 ^ 53)%N])).
  { rewrite cycle_after_select, select_run, R.
    replace (nth_error [] _) with (@None str) by (now destruct (floor_scaled _ _)).
    now rewrite convertProxy_undefined. }
  split; [exact C |]. intros F.
  now rewrite getProxy_step, (validateOptions_validated _ _ V), C, F.
Qed.

Lemma getProxy_throws_on_the_empty_list :
  exists k,
    cycle live_world (constructor None None) [] =
      (Exn ProxyUndefined, constructor None None, [] ++ [EvRandom k]) /\
    (truthy (opt forceRetry (constructor None None)) = false ->
     getProxy live_world 1 (constructor None None) [] =
       (Exn (Rethrown ProxyUndefined), constructor None None, [] ++ [EvRandom k])).
Proof.
  apply (getProxy_throws_when_nothing_remains live_world 0 (constructor None None) []).
  - eexists. split; reflexivity.
  - reflexivity.
Defined.

Lemma validated_same_options this this' :
  options this' = options this -> validated this -> validated this'.
Proof. intros E (o & O & W). exists o. split; [congruence | exact W]. Qed.

(** What a cycle does to the cache and when it reports a working proxy. *)
Lemma cycle_outcome env this tr :
  exists r this1 tr1,
    cycle env this tr = (r, this1, tr1) /\
    (cache this1 = cache this \/
     exists p, ~ In p (cache this) /\ cache this1 = cache this ++ [p]) /\
    (forall p, r = Val (Some p) ->
       In p (cache this1) /\
       exists this2 tr2 this3 tr3,
         testProxy env (Some p) this2 tr2 = (Val true, this3, tr3) /\
         options this2 = options this).
Proof.
  rewrite cycle_after_select.
  destruct (select_frame env this tr) as (r & evs & -> & _).
  destruct r as [proxy | e |];
    [| eexists _, _, _; split; [reflexivity |]; split; [now left | discriminate] ..].
  unfold bind at 1.
  assert (M : exists r this1, mark proxy this (tr ++ evs) = (r, this1, tr ++ evs) /\
                ((r = Val tt /\ In proxy (cache this1)) \/ (exists e, r = Exn e)) /\
                options this1 = options this /\
                (cache this1 = cache this \/
                 exists p, ~ In p (cache this) /\ cache this1 = cache this ++ [p])).
  { unfold mark. destruct (includes (cache this) proxy) eqn:I; cbn [negb].
    - destruct (length (cache this) =? length (proxyList this)).
      + eexists _, _. split; [reflexivity |]. split; [right; eauto |]. auto.
      + eexists _, _. split; [reflexivity |]. split; [left; split; auto; now apply includes_In |].
        auto.
    - eexists _, _. split; [reflexivity |]. split.
      + left. split; [reflexivity |]. cbn [set_cache cache]. apply in_app_iff. right. now left.
      + split; [reflexivity |]. right. exists proxy. split; [now apply includes_false | reflexivity]. }
  destruct M as (r & this1 & -> & [[-> I] | (e & ->)] & O & K);
    [| eexists _, _, _; split; [reflexivity |]; split; [exact K | discriminate]].
  unfold bind at 1.
  destruct (log_run (LogTrying proxy) this1 (tr ++ evs)) as (evs1 & -> & _).
  unfold bind at 1.
  pose proof (keeps_testProxy_cache env (Some proxy) this1 ((tr ++ evs) ++ evs1)) as T.
  destruct (testProxy env (Some proxy) this1 ((tr ++ evs) ++ evs1)) as [[[w | e |] this2] tr2] eqn:TP;
    unfold final in T; cbn [fst snd] in T;
    eexists _, _, _; (split; [reflexivity |]); (split; [now rewrite T |]); try discriminate.
  unfold ret. intros p [= Q]. destruct w; [| discriminate]. injection Q as <-.
  split; [now rewrite T |]. eexists _, _, _, _. split; [exact TP | exact O].
Qed.

(** X13.  The address [getProxy] returns is in the cache afterwards, so it
    is not among the candidates line 299 keeps for the next call. *)
Theorem getProxy_returns_a_cached_address env fuel : forall this tr p,
  result (getProxy env fuel this tr) = Val p ->
  In p (cache (final (getProxy env fuel this tr))) /\
  ~ In p (remaining (final (getProxy env fuel this tr))).
Proof.
  assert (X : forall this p, In p (cache this) -> In p (cache this) /\ ~ In p (remaining this)).
  { intros this p I. split; [exact I |]. rewrite remaining_In. tauto. }
  intros this tr p R. apply X. revert this tr p R.
  induction fuel as [| fuel IH]; intros this tr p; [discriminate |].
  rewrite getProxy_step.
  destruct (validateOptions this tr) as [[[b | e |] this0] tr0]; try discriminate.
  destruct (cycle_outcome env this0 tr0) as (r & this1 & tr1 & -> & _ & S).
  destruct r as [[q |] | e |]; try discriminate.
  - intros [= ->]. now apply (S p).
  - apply IH.
  - destruct (truthy (opt forceRetry this1)); [apply IH | discriminate].
Qed.

Lemma getProxy_returns_a_cached_address_on_two_literals :
  In (js "10.0.0.1:8080") (cache (final (getProxy live_world 1 two_literals []))) /\
  ~ In (js "10.0.0.1:8080") (remaining (final (getProxy live_world 1 two_literals []))).
Proof.
  apply (getProxy_returns_a_cached_address live_world 1 two_literals [] (js "10.0.0.1:8080")).
  reflexivity.
Defined.

(** X14.  [getProxy] never enters an address in the cache twice: a cache
    without duplicates stays without duplicates. *)
Theorem getProxy_keeps_the_cache_duplicate_free env fuel : forall this tr,
  NoDup (cache this) -> NoDup (cache (final (getProxy env fuel this tr))).
Proof.
  induction fuel as [| fuel IH]; intros this tr N; [exact N |].
  rewrite getProxy_step.
  pose proof (keeps_validateOptions_cache this tr) as V.
  destruct (validateOptions this tr) as [[[b | e |] this0] tr0];
    unfold final in V; cbn [fst snd] in V; try (unfold final; cbn [fst snd]; congruence).
  destruct (cycle_outcome env this0 tr0) as (r & this1 & tr1 & -> & K & _).
  assert (N1 : NoDup (cache this1)).
  { destruct K as [-> | (q & Q & ->)]; rewrite V; [exact N |].
    apply NoDup_app; [exact N | constructor; [intros [] | constructor] |].
    intros x I [<- | []]. rewrite V in Q. now apply Q. }
  destruct r as [[q |] | e |]; try exact N1.
  - now apply IH.
  - destruct (truthy (opt forceRetry this1)); [| exact N1].
    apply IH. constructor.
Qed.

Lemma getProxy_keeps_the_cache_duplicate_free_on_two_names :
  NoDup (cache (final (getProxy (dead_world (fun _ => 0%N)) 5 two_names []))).
Proof.
  apply (getProxy_keeps_the_cache_duplicate_free (dead_world (fun _ => 0%N)) 5 two_names []).
  constructor.
Defined.

Lemma testProxy_not_true env proxy this tr :
  validated this -> never_in_time env ->
  result (testProxy env proxy this tr) <> Val true.
Proof.
  intros V D. unfold testProxy, bind. rewrite (validateOptions_validated _ _ V).
  destruct (falsy proxy); [discriminate |].
  destruct (convertProxy_run env proxy this tr) as (r & evs & -> & _).
  destruct r as [q | e |]; try discriminate.
  destruct (probe_run env q this (tr ++ evs)) as (evs' & -> & _).
  unfold result. cbn [fst]. now rewrite D.
Qed.

(** X15.  With [forceRetry] on and no request ever answered in time,
    [getProxy] neither returns nor throws, however long it runs. *)
Theorem getProxy_retries_forever env this :
  validated this -> truthy (opt forceRetry this) = true -> never_in_time env ->
  forall fuel tr, result (getProxy env fuel this tr) = NoFuel.
Proof.
  intros V F D fuel. revert this V F.
  induction fuel as [| fuel IH]; intros this V F tr; [reflexivity |].
  rewrite getProxy_step, (validateOptions_validated _ _ V).
  pose proof (cycle_options env this tr V) as O.
  destruct (cycle_outcome env this tr) as (r & this1 & tr1 & E & _ & S). rewrite E in *.
  unfold final in O. cbn [fst snd] in O.
  assert (V1 : validated this1) by (now apply (validated_same_options this)).
  assert (F1 : opt forceRetry this1 = opt forceRetry this) by (unfold opt; now rewrite O).
  destruct r as [[q |] | e |].
  - exfalso. destruct (S q eq_refl) as (_ & this2 & tr2 & this3 & tr3 & T & O2).
    apply (testProxy_not_true env (Some q) this2 tr2); [| exact D | now rewrite T].
    now apply (validated_same_options this).
  - apply IH; [exact V1 | now rewrite F1].
  - rewrite F1, F. apply IH; [now apply validated_set_cache | now rewrite <- F1 in F].
  - reflexivity.
Qed.

Lemma getProxy_retries_forever_on_the_empty_list :
  result (getProxy (dead_world (fun _ => 0%N)) 50 retrying_empty []) = NoFuel.
Proof.
  refine (getProxy_retries_forever (dead_world (fun _ => 0%N)) retrying_empty _ _ _ 50 []).
  - eexists. split; reflexivity.
  - reflexivity.
  - intros t url proxy limit. reflexivity.
Defined.

(** ** The draw reaches every remaining candidate *)

Lemma floor_scaled_reaches len i :
  i < len -> (N.of_nat len <= 2 ^ 32)%N ->
  exists k, (k < 2 ^ 53)%N /\ floor_scaled k len = i.
Proof.
  intros I L. set (B := (2 ^ 53)%N) in *.
  set (n := N.of_nat len) in *. set (a := (N.of_nat i * B + n - 1)%N).
  assert (Hn : (0 < n)%N) by (subst n; lia).
  assert (Hi : (N.of_nat i < n)%N) by (subst n; lia).
  pose proof (N.div_mod a n ltac:(lia)) as DM.
  pose proof (N.mod_lt a n ltac:(lia)) as ML.
  set (k := (a / n)%N) in *. set (r := (a mod n)%N) in *.
  assert (Lo : (N.of_nat i * B <= k * n)%N) by (subst a; nia).
  assert (Hi' : (k * n <= N.of_nat i * B + n - 1)%N) by (subst a; nia).
  assert (Bv : B = 9007199254740992%N) by reflexivity.
  exists k. split; [nia |].
  unfold floor_scaled. fold B. fold n.
  destruct (round_to_double_spec (k * n)) as (s & half & H1 & _ & H2 & Es & G).
  assert (Ss : (s <= 53)%N).
  { destruct (N.eq_dec (k * n) 0) as [Z | Z]; [rewrite Z in Es; simpl in Es; lia |].
    assert (N.log2 (k * n) < 86)%N; [| lia].
    apply N.log2_lt_pow2; [lia |].
    assert (2 ^ 86 = 2 ^ 32 * 2 ^ 54)%N by reflexivity.
    assert (2 ^ 54 = 2 * B)%N by reflexivity. nia. }
  assert (D : (B = 2 ^ (53 - s) * 2 ^ s)%N).
  { unfold B. rewrite <- N.pow_add_r. f_equal. lia. }
  assert (Lo' : (N.of_nat i * B <= round_to_double (k * n))%N).
  { specialize (G (N.of_nat i * 2 ^ (53 - s))%N).
    rewrite <- N.mul_assoc, <- D in G. now apply G. }
  assert (Hh : (half < 2 ^ 32)%N) by nia.
  assert (E : (round_to_double (k * n) / B = N.of_nat i)%N).
  { symmetry. apply (N.div_unique _ _ _ (round_to_double (k * n) - N.of_nat i * B)); [| lia].
    assert (2 ^ 32 = 4294967296)%N by reflexivity. lia. }
  rewrite E. apply Nat2N.id.
Qed.

(** X16.  The index [Math.floor(Math.random() * length)] of line 302, with
    the product rounded as a double, always falls on a candidate of the list
    that is not in the cache; and, the array being shorter than [2^32], every
    such candidate is drawn by some value of [Math.random()]. *)
Theorem every_remaining_candidate_can_be_drawn this i c :
  nth_error (remaining this) i = Some c ->
  (N.of_nat (length (remaining this)) <= 2 ^ 32)%N ->
  (exists k, (k < 2 ^ 53)%N /\
             nth_error (remaining this) (floor_scaled k (length (remaining this))) = Some c) /\
  (forall k, (k < 2 ^ 53)%N ->
             exists c', nth_error (remaining this) (floor_scaled k (length (remaining this))) = Some c'
                        /\ In c' (proxyList this) /\ ~ In c' (cache this)).
Proof.
  intros N L.
  assert (I : i < length (remaining this)) by (apply nth_error_Some; congruence).
  split.
  - destruct (floor_scaled_reaches _ _ I L) as (k & K & E). exists k. now rewrite E.
  - intros k K. pose proof (drawn_remaining this k K) as D.
    destruct (nth_error (remaining this) (floor_scaled k (length (remaining this)))) as [c' |].
    + exists c'. split; [reflexivity |]. now apply remaining_In.
    + rewrite D in I. simpl in I. lia.
Qed.

Lemma every_candidate_of_two_literals_can_be_drawn :
  (exists k, (k < 2 ^ 53)%N /\
             nth_error (remaining two_literals)
               (floor_scaled k (length (remaining two_literals))) = Some (js "10.0.0.2:8080")) /\
  (forall k, (k < 2 ^ 53)%N ->
             exists c', nth_error (remaining two_literals)
                          (floor_scaled k (length (remaining two_literals))) = Some c'
                        /\ In c' (proxyList two_literals) /\ ~ In c' (cache two_literals)).
Proof.
  apply (every_remaining_candidate_can_be_drawn two_literals 1 (js "10.0.0.2:8080")).
  - reflexivity.
  - vm_compute. discriminate.
Defined.

(** ** Which errors a conversion and a cycle can throw *)

Lemma convertProxy_errors env proxy this tr e :
  result (convertProxy env proxy this tr) = Exn e ->
  e = ProxyUndefined \/ (exists p, e = InvalidFormat p) \/ (exists h, e = ResolveFailed h).
Proof.
  destruct (falsy proxy) eqn:F.
  { rewrite (convertProxy_undefined env _ this tr F). intros [= <-]. auto. }
  destruct proxy as [p |]; [| discriminate].
  assert (N : p <> []) by (now destruct p).
  destruct (proxyType (Some p)) as [t | e' |] eqn:T;
    [| unfold proxyType in T; rewrite F in T; simpl in T;
       destruct (test directPattern p), (test authPattern p); discriminate ..].
  pose proof (proxyType_cases _ _ T) as K. destruct t.
  - destruct K as (host & port & -> & H1 & H2).
    rewrite (convertProxy_direct env _ _ _ _ H1 H2). unfold resolved.
    destruct (test hasNumber host); [discriminate |].
    destruct (dns_lookup env (length tr) host); [discriminate |]. intros [= <-]. eauto.
  - destruct K as (user & pass & host & port & -> & H1 & H2 & H3 & H4).
    rewrite (convertProxy_auth env _ _ _ _ _ _ H1 H2 H3 H4). unfold resolved.
    destruct (test hasNumber host); [discriminate |].
    destruct (dns_lookup env (length tr) host); [discriminate |]. intros [= <-]. eauto.
  - destruct K as (_ & D & A). rewrite (convertProxy_invalid env _ _ _ N D A).
    intros [= <-]. eauto.
Qed.


Lemma testProxy_errors env proxy this tr e :
  validated this -> result (testProxy env proxy this tr) = Exn e -> conversion_error e.
Proof.
  intros V. unfold testProxy, bind. rewrite (validateOptions_validated _ _ V).
  destruct (falsy proxy); [intros [= <-]; now left |].
  pose proof (convertProxy_errors env proxy this tr) as C.
  destruct (convertProxy_run env proxy this tr) as (r & evs & E & _). rewrite E in *.
  destruct r as [q | e' |]; try discriminate.
  - destruct (probe_run env q this (tr ++ evs)) as (evs' & -> & _). discriminate.
  - intros [= <-]. now apply C.
Qed.

Lemma cycle_errors env this tr e :
  validated this -> result (cycle env this tr) = Exn e ->
  conversion_error e \/
  (e = AllTested /\
   exists proxy tr1,
     select env this tr = (Val proxy, this, tr1) /\
     In proxy (cache this) /\ length (cache this) = length (proxyList this)).
Proof.
  intros V. rewrite cycle_after_select.
  pose proof (convertProxy_errors env
                (nth_error (remaining this)
                   (floor_scaled (math_random env (length tr) mod 2 ^ 53) (length (remaining this))))
                this (tr ++ [EvRandom (math_random env (length tr) mod 2 ^ 53)])) as CE.
  rewrite <- select_run in CE.
  destruct (select_frame env this tr) as (r & evs & E & _). rewrite E in *.
  destruct r as [proxy | e' |]; try discriminate.
  2:{ intros [= <-]. left. now apply CE. }
  unfold bind at 1. unfold mark.
  destruct (includes (cache this) proxy) eqn:I; cbn [negb].
  - destruct (length (cache this) =? length (proxyList this)) eqn:L.
    + intros [= <-]. right. split; [reflexivity |]. exists proxy, (tr ++ evs).
      split; [reflexivity |]. split; [now apply includes_In | now apply Nat.eqb_eq].
    + unfold bind at 1. destruct (log_run (LogTrying proxy) this (tr ++ evs)) as (evs1 & -> & _).
      unfold bind at 1.
      pose proof (testProxy_errors env (Some proxy) this ((tr ++ evs) ++ evs1)) as TE.
      destruct (testProxy env (Some proxy) this ((tr ++ evs) ++ evs1)) as [[[w | e' |] this2] tr2];
        try discriminate.
      intros [= <-]. left. now apply TE.
  - unfold bind at 1.
    destruct (log_run (LogTrying proxy) (set_cache this (cache this ++ [proxy])) (tr ++ evs))
      as (evs1 & -> & _).
    unfold bind at 1.
    pose proof (testProxy_errors env (Some proxy) (set_cache this (cache this ++ [proxy]))
                  ((tr ++ evs) ++ evs1)) as TE.
    destruct (testProxy env (Some proxy) (set_cache this (cache this ++ [proxy]))
                ((tr ++ evs) ++ evs1)) as [[[w | e' |] this2] tr2]; try discriminate.
    intros [= <-]. left. apply TE; [now apply validated_set_cache | reflexivity].
Qed.

Lemma cycle_validated env this tr :
  validated this -> validated (final (cycle env this tr)).
Proof.
  intros V. apply (validated_same_options this); [now apply cycle_options | exact V].
Qed.

(** X17.  [getProxy] throws the configuration error as it is and every other
    error wrapped once in [new Error]: the cause is "Proxy cannot be
    undefined", an invalid-format error, a resolution error or the "all
    tested" error, never a [TypeError]. *)
Theorem getProxy_errors env fuel : forall this tr e,
  result (getProxy env fuel this tr) = Exn e ->
  e = InvalidOptions \/
  exists cause, e = Rethrown cause /\ (conversion_error cause \/ cause = AllTested).
Proof.
  induction fuel as [| fuel IH]; intros this tr e; [discriminate |].
  rewrite getProxy_step.
  destruct (validateOptions_run this tr) as (r0 & this0 & E & _ & _ & [[-> V] | ->]);
    rewrite E; [| intros [= <-]; now left].
  pose proof (cycle_errors env this0 tr) as CE.
  destruct (cycle env this0 tr) as [[[[q |] | c |] this1] tr1]; try discriminate.
  - apply IH.
  - destruct (truthy (opt forceRetry this1)); [apply IH |].
    intros [= <-]. right. exists c. split; [reflexivity |].
    destruct (CE c V eq_refl) as [H | [H _]]; auto.
Qed.

Lemma getProxy_errors_on_two_literals :
  Rethrown ProxyUndefined = InvalidOptions \/
  exists cause, Rethrown ProxyUndefined = Rethrown cause /\
                (conversion_error cause \/ cause = AllTested).
Proof.
  apply (getProxy_errors (dead_world (fun _ => 0%N)) 3 two_literals [] (Rethrown ProxyUndefined)).
  vm_compute. reflexivity.
Defined.

(** X18.  Over candidates that need no lookup the "All proxies have been
    tested" error of line 307 is never thrown, by a cycle or by
    [getProxy]. *)
Theorem all_tested_is_not_thrown_without_lookups env this :
  validated this ->
  (forall c, In c (proxyList this) -> needs_lookup c = false) ->
  forall fuel tr,
    result (cycle env this tr) <> Exn AllTested /\
    result (getProxy env fuel this tr) <> Exn (Rethrown AllTested).
Proof.
  assert (C : forall s t, validated s ->
                (forall c, In c (proxyList s) -> needs_lookup c = false) ->
                result (cycle env s t) <> Exn AllTested).
  { intros s t V L R.
    destruct (cycle_errors env s t AllTested V R)
      as [[H | [(p & H) | (h & H)]] | (_ & proxy & tr1 & S & I & _)]; try discriminate.
    rewrite select_run in S.
    pose proof (drawn_remaining s _ (random_below env (length t))) as D.
    destruct (nth_error (remaining s) _) as [c |];
      [| rewrite convertProxy_undefined in S by reflexivity; discriminate].
    apply remaining_In in D as [Il Ic].
    destruct (convertProxy_no_lookup env c (L c Il)) as [K | (e & K)]; rewrite K in S;
      [| discriminate].
    injection S as <- _. contradiction. }
  intros V L fuel tr. split; [now apply C |]. revert this V L tr.
  induction fuel as [| fuel IH]; intros this V L tr; [discriminate |].
  rewrite getProxy_step, (validateOptions_validated _ _ V).
  pose proof (C this tr V L) as NC.
  pose proof (cycle_validated env this tr V) as V1.
  pose proof (keeps_cycle_list env this tr) as KL.
  destruct (cycle env this tr) as [[[[q |] | c |] this1] tr1];
    unfold final in V1, KL; cbn [fst snd] in V1, KL; try discriminate.
  - apply IH; [exact V1 | now rewrite KL].
  - destruct (truthy (opt forceRetry this1)).
    + apply IH; [now apply validated_set_cache | cbn [set_cache proxyList]; now rewrite KL].
    + intros [= ->]. now apply NC.
Qed.

Lemma all_tested_is_not_thrown_on_two_literals :
  result (cycle (dead_world (fun _ => 0%N)) two_literals []) <> Exn AllTested /\
  result (getProxy (dead_world (fun _ => 0%N)) 3 two_literals []) <> Exn (Rethrown AllTested).
Proof.
  refine (all_tested_is_not_thrown_without_lookups (dead_world (fun _ => 0%N)) two_literals
            _ _ 3 []).
  - eexists. split; reflexivity.
  - intros c [<- | [<- | []]]; reflexivity.
Defined.

(** X19.  The test of line 157 accepts exactly the dotted quads: four decimal
    octets from 0 to 255, without leading zeros, separated by dots. *)
Theorem hasNumber_accepts_exactly_dotted_quads (host : str) :
  test hasNumber host = true <-> ipv4_literal host.
Proof. apply hasNumber_spec. Qed.

(** ** The end of [getProxy] over candidates that need no lookup *)

(** X20.  When no candidate needs a lookup (each is malformed, or has a
    dotted quad for its host) and [forceRetry] is off, [getProxy] ends within
    [|proxyList| + 1] calls of itself.  It returns a candidate whose request,
    the last one sent, was answered within the limit; or it throws
    [new Error] of "Proxy cannot be undefined", every candidate outside the
    cache having been probed or the empty string being a candidate; or
    [new Error] of the invalid-format error of a malformed candidate; or the
    configuration error.  It probes at most [|proxyList|] times, no address
    twice, and only candidates that were not in the cache. *)
Theorem getProxy_ends_without_lookups env this tr :
  force_retry_off this ->
  (forall c, In c (proxyList this) -> needs_lookup c = false) ->
  exists r this' evs,
    getProxy env (S (length (proxyList this))) this tr = (r, this', tr ++ evs) /\
    ((exists p, r = Val p /\ In p (remaining this) /\ ends_on_a_working_probe env tr evs p) \/
     (r = Exn (Rethrown ProxyUndefined) /\
      (incl (remaining this) (probes evs) \/ In [] (remaining this))) \/
     (exists q, r = Exn (Rethrown (InvalidFormat q)) /\ In q (remaining this) /\
                proxyType (Some q) = Val Invalid) \/
     r = Exn InvalidOptions) /\
    length (probes evs) <= length (proxyList this) /\
    NoDup (probes evs) /\
    incl (probes evs) (remaining this).
Proof.
  intros FR L.
  destruct (validateOptions_run this tr) as (r0 & this0 & E & El & Ec & [[-> V] | ->]).
  - rewrite (getProxy_validated _ _ _ _ _ E V).
    assert (FR0 : truthy (opt forceRetry this0) = false).
    { pose proof (forceRetry_validated this tr) as F. rewrite E in F.
      unfold final in F. cbn [fst snd] in F. rewrite F, FR. reflexivity. }
    assert (Re : remaining this0 = remaining this).
    { unfold remaining. now rewrite El, Ec. }
    assert (Rl : length (remaining this0) <= length (proxyList this)).
    { rewrite Re. apply filter_length_le. }
    destruct (getProxy_literal env (length (proxyList this)) this0 tr
                (S (length (proxyList this))) V FR0)
      as (r & this' & evs & G & RV & ND & IN);
      [rewrite El; exact L | exact Rl | lia |].
    rewrite Re in *.
    assert (IL : incl (probes evs) (proxyList this)).
    { intros x H. now apply IN, remaining_In in H as [H _]. }
    exists r, this', evs. split; [exact G |]. split; [| split; [| split]].
    + destruct RV as [(p & -> & W) | [H | H]]; [left | right; left; exact H | right; right; left; exact H].
      exists p. split; [reflexivity |]. split; [| exact W].
      destruct W as (b & url & limit & a & -> & _). apply IN.
      rewrite probes_app. apply in_or_app. right. now left.
    + now apply NoDup_incl_length.
    + exact ND.
    + exact IN.
  - exists (Exn InvalidOptions), this0, []. rewrite getProxy_step, E, app_nil_r.
    split; [reflexivity |]. split; [tauto |].
    simpl. split; [lia |]. split; [apply NoDup_nil | apply incl_nil_l].
Qed.

Lemma getProxy_ends_on_two_literals :
  exists r this' evs,
    getProxy live_world (S (length (proxyList two_literals))) two_literals []
      = (r, this', [] ++ evs) /\
    ((exists p, r = Val p /\ In p (remaining two_literals) /\
                ends_on_a_working_probe live_world [] evs p) \/
     (r = Exn (Rethrown ProxyUndefined) /\
      (incl (remaining two_literals) (probes evs) \/ In [] (remaining two_literals))) \/
     (exists q, r = Exn (Rethrown (InvalidFormat q)) /\ In q (remaining two_literals) /\
                proxyType (Some q) = Val Invalid) \/
     r = Exn InvalidOptions) /\
    length (probes evs) <= length (proxyList two_literals) /\
    NoDup (probes evs) /\
    incl (probes evs) (remaining two_literals).
Proof.
  apply (getProxy_ends_without_lookups live_world two_literals []).
  - reflexivity.
  - intros c [<- | [<- | []]]; reflexivity.
Defined.

(** ** The [catch] block of [getProxy] *)

(** X21.  When the [try] block of a call of [getProxy] throws and
    [forceRetry] is on, the call goes on as a call of [getProxy] on the same
    list and options with an empty cache, after at most a console line and
    without reaching the network in between: the error is not thrown. *)
Theorem forceRetry_restarts_with_an_empty_cache env fuel this tr e this1 tr1 :
  validated this ->
  truthy (opt forceRetry this) = true ->
  cycle env this tr = (Exn e, this1, tr1) ->
  exists line,
    getProxy env (S fuel) this tr = getProxy env fuel (set_cache this1 []) (tr1 ++ line) /\
    cache (set_cache this1 []) = [] /\
    proxyList (set_cache this1 []) = proxyList this /\
    options (set_cache this1 []) = options this /\
    existsb network_event line = false.
Proof.
  intros V F C.
  pose proof (cycle_options env this tr V) as O. rewrite C in O.
  pose proof (keeps_cycle_list env this tr) as K. rewrite C in K.
  unfold final in O, K. cbn [fst snd] in O, K.
  assert (F1 : opt forceRetry this1 = opt forceRetry this) by (unfold opt; now rewrite O).
  rewrite getProxy_step, (validateOptions_validated _ _ V), C, F1, F.
  destruct (log_run (LogRetrying e) this1 tr1) as (line & L & _ & N).
  exists line. rewrite L. auto.
Qed.

Lemma forceRetry_restarts_after_a_failed_probe :
  exists line,
    getProxy live_world 2 retrying_probed [] =
    getProxy live_world 1 (set_cache retrying_probed []) ([EvRandom 0%N] ++ line) /\
    cache (set_cache retrying_probed []) = [] /\
    proxyList (set_cache retrying_probed []) = proxyList retrying_probed /\
    options (set_cache retrying_probed []) = options retrying_probed /\
    existsb network_event line = false.
Proof.
  apply (forceRetry_restarts_with_an_empty_cache live_world 1 retrying_probed []
           ProxyUndefined retrying_probed [EvRandom 0%N]).
  - eexists. split; reflexivity.
  - reflexivity.
  - reflexivity.
Defined.

(** X22.  When the [try] block of a call of [getProxy] throws [e] and
    [forceRetry] is off, the call throws [new Error(e)], whatever [e] is, in
    the state and with the trace the [try] block left. *)
Theorem getProxy_rethrows_without_forceRetry env fuel this tr e this1 tr1 :
  validated this ->
  truthy (opt forceRetry this) = false ->
  cycle env this tr = (Exn e, this1, tr1) ->
  getProxy env (S fuel) this tr = (Exn (Rethrown e), this1, tr1).
Proof.
  intros V F C.
  pose proof (cycle_options env this tr V) as O. rewrite C in O.
  unfold final in O. cbn [fst snd] in O.
  assert (F1 : opt forceRetry this1 = opt forceRetry this) by (unfold opt; now rewrite O).
  now rewrite getProxy_step, (validateOptions_validated _ _ V), C, F1, F.
Qed.

Lemma getProxy_rethrows_the_invalid_format_error :
  getProxy live_world 1 (constructor (Some [js "bad@@format"]) None) [] =
  (Exn (Rethrown (InvalidFormat (js "bad@@format"))),
   constructor (Some [js "bad@@format"]) None, [EvRandom 0%N]).
Proof.
  apply (getProxy_rethrows_without_forceRetry live_world 0
           (constructor (Some [js "bad@@format"]) None) []
           (InvalidFormat (js "bad@@format"))
           (constructor (Some [js "bad@@format"]) None) [EvRandom 0%N]).
  - eexists. split; reflexivity.
  - reflexivity.
  - reflexivity.
Defined.
